(** * Terminal widgets: List, Table, Timer and TextInput

    A shallow embedding of the pure model/transition/view functions of the
    widget library (list.ts, table.ts, timer.ts, textinput.ts) and the
    properties of their navigation, column sizing, finishing and masking.

    Conventions of the embedding:
    - a JavaScript [number] that the widgets use as an index, a size or a
      time stamp is a [Z]; fractional numbers and NaN are outside the model;
    - a JavaScript string is a [string]; [.length] is [String.length]
      (the widgets never look inside a character);
    - an optional field [f?: T] is an [option T]; the truthiness tests of the
      source ([if (col.width)], [model.mask ? .. : ..]) are written out;
    - [Date.now()] is an explicit argument [now];
    - a [while] loop is run by [whileF] with a bound on the number of
      iterations; for every loop a lemma shows that the bound is never
      reached, i.e. the loop condition is false in the state returned. *)

From Stdlib Require Import ZArith List String Ascii Bool Lia DecimalString.
Import ListNotations.

#[local] Open Scope string_scope.
#[local] Open Scope Z_scope.

(* ================================================================= *)
(** ** JavaScript primitives used by the widgets *)

Module JS.

(** [arr[i]] for a numeric index: [undefined] (here [None]) outside
    [0 .. arr.length-1]. *)
Definition index {A : Type} (arr : list A) (i : Z) : option A :=
  if i <? 0 then None else nth_error arr (Z.to_nat i).

(** [arr.length] and [s.length] as numbers. *)
Definition len {A : Type} (arr : list A) : Z := Z.of_nat (List.length arr).
Definition slen (s : string) : Z := Z.of_nat (String.length s).

(** Truthiness of an optional number ([undefined], [0] are falsy) and of a
    string ([""] is falsy). *)
Definition truthyNum (o : option Z) : bool :=
  match o with
  | Some n => negb (n =? 0)
  | None => false
  end.

Definition truthyStr (s : string) : bool := negb (String.length s =? 0)%nat.

Definition truthyOptStr (o : option string) : bool :=
  match o with
  | Some s => truthyStr s
  | None => false
  end.

(** A bounded [while (cond) body]: at most [fuel] iterations. *)
Fixpoint whileF {A : Type} (cond : A -> bool) (body : A -> A)
         (fuel : nat) (s : A) : A :=
  match fuel with
  | O => s
  | S fuel' => if cond s then whileF cond body fuel' (body s) else s
  end.

(** Big-step meaning of [while (cond) body]: the state in which it exits. *)
Inductive while_exits {A : Type} (cond : A -> bool) (body : A -> A)
  : A -> A -> Prop :=
| while_done : forall s, cond s = false -> while_exits cond body s s
| while_iter : forall s s', cond s = true ->
    while_exits cond body (body s) s' -> while_exits cond body s s'.

(** [String(n)] for an integer. *)
Definition numToString (n : Z) : string := NilZero.string_of_int (Z.to_int n).

(** [s.repeat(n)]: a RangeError ([None]) for a negative count. *)
Fixpoint repeatNat (s : string) (n : nat) : string :=
  match n with
  | O => ""
  | S n' => s ++ repeatNat s n'
  end.

Definition repeat (s : string) (n : Z) : option string :=
  if n <? 0 then None else Some (repeatNat s (Z.to_nat n)).

(** [s.slice(from, to)] and [s.slice(from)]: negative positions count from
    the end, positions are clamped into the string. *)
Definition slicePos (l i : Z) : Z :=
  if i <? 0 then Z.max (l + i) 0 else Z.min i l.

Definition slice (s : string) (from to : Z) : string :=
  let l := slen s in
  let a := slicePos l from in
  let b := slicePos l to in
  substring (Z.to_nat a) (Z.to_nat (Z.max (b - a) 0)) s.

Definition sliceFrom (s : string) (from : Z) : string :=
  slice s from (slen s).

(** [s.padEnd(w)] and [s.padStart(w)] with the default filler, a space. *)
Definition padEnd (s : string) (w : Z) : string :=
  s ++ repeatNat " " (Z.to_nat (w - slen s)).

Definition padStart (s : string) (w : Z) : string :=
  repeatNat " " (Z.to_nat (w - slen s)) ++ s.

(** [lines.join(sep)]. *)
Definition join (sep : string) (parts : list string) : string :=
  String.concat sep parts.

Definition newline : string := String (ascii_of_nat 10) EmptyString.

(** [s[i]]: [undefined] ([None]) outside the string. *)
Definition charAt (s : string) (i : Z) : option ascii :=
  if i <? 0 then None else String.get (Z.to_nat i) s.

(** [s.padStart(w, fill)] for a one-character filler. *)
Definition padStartWith (fill : string) (s : string) (w : Z) : string :=
  repeatNat fill (Z.to_nat (w - slen s)) ++ s.

(** Running a computation that can throw over an array, left to right. *)
Fixpoint mapM {A B : Type} (f : A -> option B) (l : list A) : option (list B) :=
  match l with
  | [] => Some []
  | a :: rest =>
      match f a with
      | None => None
      | Some b =>
          match mapM f rest with
          | None => None
          | Some bs => Some (b :: bs)
          end
      end
  end.

(** [arr.map((x, i) => ...)]: the elements with their indices from [i]. *)
Fixpoint indexed {A : Type} (i : nat) (l : list A) : list (nat * A) :=
  match l with
  | [] => []
  | a :: rest => (i, a) :: indexed (S i) rest
  end.

End JS.

(* ================================================================= *)
(** ** list.ts *)

Module ListWidget.

Section Items.

(** The payload type [T] of [ListItem<T>]. *)
Context {T : Type}.

Record ListItem : Type := mkItem {
  title : string;
  description : option string;
  value : option T;
  disabled : option bool
}.

Record ListOptions : Type := mkOptions {
  o_items : option (list ListItem);
  o_selected : option Z;
  o_height : option Z;
  o_cursor : option string;
  o_uncursor : option string;
  o_showDescriptions : option bool;
  o_wrap : option bool
}.

Record ListModel : Type := mkModel {
  items : list ListItem;
  selected : Z;
  height : Z;
  offset : Z;
  cursor : string;
  uncursor : string;
  showDescriptions : bool;
  wrap : bool
}.

(** [{ ...model, selected: n }] and [{ ...model, offset: n }]. *)
Definition withSelected (m : ListModel) (n : Z) : ListModel :=
  mkModel (items m) n (height m) (offset m) (cursor m) (uncursor m)
          (showDescriptions m) (wrap m).

Definition withOffset (m : ListModel) (n : Z) : ListModel :=
  mkModel (items m) (selected m) (height m) n (cursor m) (uncursor m)
          (showDescriptions m) (wrap m).

(** [x ?? d]. *)
Definition orElse {A : Type} (o : option A) (d : A) : A :=
  match o with
  | Some a => a
  | None => d
  end.

(** [model.items[i]?.disabled] as a condition. *)
Definition isDisabled (its : list ListItem) (i : Z) : bool :=
  match JS.index its i with
  | Some it => orElse (disabled it) false
  | None => false
  end.

Definition createList (options : ListOptions) : ListModel :=
  let its := orElse (o_items options) [] in
  let sel := orElse (o_selected options) 0 in
  let h := orElse (o_height options) 0 in
  mkModel its
          (Z.max 0 (Z.min sel (JS.len its - 1)))
          h
          0
          (orElse (o_cursor options) "> ")
          (orElse (o_uncursor options) "  ")
          (orElse (o_showDescriptions options) false)
          (orElse (o_wrap options) true).

Definition setItems (m : ListModel) (its : list ListItem) : ListModel :=
  mkModel its
          (Z.min (selected m) (Z.max 0 (JS.len its - 1)))
          (height m)
          0
          (cursor m) (uncursor m) (showDescriptions m) (wrap m).

Definition updateOffset (m : ListModel) : ListModel :=
  if height m =? 0 then withOffset m 0
  else
    let newOffset := offset m in
    let newOffset :=
      if selected m >=? offset m + height m
      then selected m - height m + 1 else newOffset in
    let newOffset :=
      if selected m <? offset m then selected m else newOffset in
    withOffset m newOffset.

(** The skip loops of [moveUp] and [moveDown]: the state is
    [(newSelected, attempts)]. *)
Definition skipCond (m : ListModel) (s : Z * Z) : bool :=
  isDisabled (items m) (fst s) && (snd s <? JS.len (items m)).

Definition upBody (m : ListModel) (s : Z * Z) : Z * Z :=
  let n := fst s - 1 in
  let n := if n <? 0 then (if wrap m then JS.len (items m) - 1 else 0) else n in
  (n, snd s + 1).

Definition moveUp (m : ListModel) : ListModel :=
  if JS.len (items m) =? 0 then m
  else
    let n := selected m - 1 in
    let n := if n <? 0 then (if wrap m then JS.len (items m) - 1 else 0) else n in
    let s := JS.whileF (skipCond m) (upBody m) (List.length (items m)) (n, 0) in
    updateOffset (withSelected m (fst s)).

Definition downBody (m : ListModel) (s : Z * Z) : Z * Z :=
  let n := fst s + 1 in
  let n := if n >=? JS.len (items m)
           then (if wrap m then 0 else JS.len (items m) - 1) else n in
  (n, snd s + 1).

Definition moveDown (m : ListModel) : ListModel :=
  if JS.len (items m) =? 0 then m
  else
    let n := selected m + 1 in
    let n := if n >=? JS.len (items m)
             then (if wrap m then 0 else JS.len (items m) - 1) else n in
    let s := JS.whileF (skipCond m) (downBody m) (List.length (items m)) (n, 0) in
    updateOffset (withSelected m (fst s)).

(** [moveToStart]: [while (items[n]?.disabled && n < items.length) n++]. *)
Definition startCond (m : ListModel) (n : Z) : bool :=
  isDisabled (items m) n && (n <? JS.len (items m)).

Definition moveToStart (m : ListModel) : ListModel :=
  if JS.len (items m) =? 0 then m
  else
    let n := JS.whileF (startCond m) Z.succ (S (List.length (items m))) 0 in
    updateOffset (withSelected m n).

(** [moveToEnd]: [while (items[n]?.disabled && n >= 0) n--]. *)
Definition endCond (m : ListModel) (n : Z) : bool :=
  isDisabled (items m) n && (n >=? 0).

Definition moveToEnd (m : ListModel) : ListModel :=
  if JS.len (items m) =? 0 then m
  else
    let n := JS.whileF (endCond m) Z.pred (S (List.length (items m)))
                       (JS.len (items m) - 1) in
    updateOffset (withSelected m n).

Inductive Direction : Type := Up | Down.

(** The loop of [moveByPage]; its body can [return model], which the state
    records in its second component. *)
Definition pageCond (m : ListModel) (s : Z * bool) : bool :=
  negb (snd s) && isDisabled (items m) (fst s).

Definition pageBody (m : ListModel) (d : Direction) (s : Z * bool) : Z * bool :=
  let n := fst s + (match d with Up => -1 | Down => 1 end) in
  (n, (n <? 0) || (n >=? JS.len (items m))).

Definition moveByPage (m : ListModel) (d : Direction) : ListModel :=
  if JS.len (items m) =? 0 then m
  else
    let pageSize := if height m >? 0 then height m else 10 in
    let n := selected m + (match d with Up => - pageSize | Down => pageSize end) in
    let n := Z.max 0 (Z.min n (JS.len (items m) - 1)) in
    let s := JS.whileF (pageCond m) (pageBody m d)
                       (S (List.length (items m))) (n, false) in
    if snd s then m else updateOffset (withSelected m (fst s)).

Definition select (m : ListModel) (i : Z) : ListModel :=
  if (i <? 0) || (i >=? JS.len (items m)) then m
  else if isDisabled (items m) i then m
  else updateOffset (withSelected m i).

Definition getSelected (m : ListModel) : option ListItem :=
  JS.index (items m) (selected m).

Definition filter (m : ListModel) (predicate : ListItem -> bool) : ListModel :=
  setItems m (List.filter predicate (items m)).

(** [model.items[model.selected]?.value]. *)
Definition getSelectedValue (m : ListModel) : option T :=
  match JS.index (items m) (selected m) with
  | Some it => value it
  | None => None
  end.

(** The window [visibleStart .. visibleEnd-1] shown by [view] and
    [viewWith]. *)
Definition visibleStart (m : ListModel) : Z := offset m.

Definition visibleEnd (m : ListModel) : Z :=
  if height m >? 0
  then Z.min (offset m + height m) (JS.len (items m))
  else JS.len (items m).

(** The [for] loop of [view], [n] iterations from index [i]. Reading
    [item.title] of an [undefined] item is a TypeError, here [None]. *)
Fixpoint viewLines (m : ListModel) (n : nat) (i : Z) : option (list string) :=
  match n with
  | O => Some []
  | S n' =>
      match JS.index (items m) i with
      | None => None
      | Some item =>
          let isSelected := i =? selected m in
          let cur := if isSelected then cursor m else uncursor m in
          let line := cur ++ title item in
          let line := if orElse (disabled item) false
                      then line ++ " (disabled)" else line in
          let pushed :=
            if showDescriptions m && JS.truthyOptStr (description item)
            then [line; uncursor m ++ "  " ++ orElse (description item) ""]
            else [line] in
          match viewLines m n' (i + 1) with
          | Some rest => Some (pushed ++ rest)%list
          | None => None
          end
      end
  end.

Definition view (m : ListModel) : option string :=
  if JS.len (items m) =? 0 then Some ""
  else
    match viewLines m (Z.to_nat (visibleEnd m - visibleStart m))
                    (visibleStart m) with
    | Some lines => Some (JS.join JS.newline lines)
    | None => None
    end.

(** The [for] loop of [viewWith]; the renderer receives [items[i]], which
    is [undefined] ([None]) for an index outside the array. *)
Fixpoint viewWithLines (m : ListModel)
         (renderItem : option ListItem -> bool -> Z -> string)
         (n : nat) (i : Z) : list string :=
  match n with
  | O => []
  | S n' =>
      renderItem (JS.index (items m) i) (i =? selected m) i
        :: viewWithLines m renderItem n' (i + 1)
  end.

Definition viewWith (m : ListModel)
           (renderItem : option ListItem -> bool -> Z -> string) : string :=
  if JS.len (items m) =? 0 then ""
  else
    JS.join JS.newline
      (viewWithLines m renderItem
         (Z.to_nat (visibleEnd m - visibleStart m)) (visibleStart m)).

(** Navigation calls, and a sequence of them applied to a model. *)
Inductive Nav : Type :=
| CallMoveUp
| CallMoveDown
| CallMoveToStart
| CallMoveToEnd
| CallMoveByPage (d : Direction)
| CallSelect (i : Z).

Definition nav (m : ListModel) (c : Nav) : ListModel :=
  match c with
  | CallMoveUp => moveUp m
  | CallMoveDown => moveDown m
  | CallMoveToStart => moveToStart m
  | CallMoveToEnd => moveToEnd m
  | CallMoveByPage d => moveByPage m d
  | CallSelect i => select m i
  end.

Definition navAll (m : ListModel) (calls : list Nav) : ListModel :=
  fold_left nav calls m.

(** The scroll-window rule for a model: with a positive height the window
    [offset .. offset+height-1] holds the selection and lies inside the
    items; with height 0 the offset is 0. *)
Definition windowOk (m : ListModel) : Prop :=
  (0 < height m ->
     (offset m <= selected m <= offset m + height m - 1) /\
     (0 <= offset m <= Z.max 0 (JS.len (items m) - height m))) /\
  (height m = 0 -> offset m = 0).

(** The offset stays inside the items. *)
Definition offsetOk (m : ListModel) : Prop :=
  0 < height m -> 0 <= offset m <= Z.max 0 (JS.len (items m) - height m).

(** The selection points into the items (0 for no items). *)
Definition selectedOk (m : ListModel) : Prop :=
  (items m <> [] -> 0 <= selected m < JS.len (items m)) /\
  (items m = [] -> selected m = 0).

(** What a model needs for navigation to keep it well formed. *)
Definition wellFormed (m : ListModel) : Prop := selectedOk m /\ windowOk m.

(** Some item can be selected. *)
Definition hasEnabled (its : list ListItem) : Prop :=
  exists i, 0 <= i < JS.len its /\ isDisabled its i = false.

(** The candidate index of [moveByPage], as the specification words it: a
    jump by [height] (10 when no height is set) clamped into the items. *)
Definition pageCandidate (m : ListModel) (d : Direction) : Z :=
  let page := if 0 <? height m then height m else 10 in
  let target := match d with
                | Up => selected m - page
                | Down => selected m + page
                end in
  Z.max 0 (Z.min target (JS.len (items m) - 1)).

(** The indices visited by the one-at-a-time stepping from [c] up to, and
    not including, [j] in direction [d]. *)
Definition steppedOver (d : Direction) (c j k : Z) : Prop :=
  match d with
  | Up => j < k <= c
  | Down => c <= k < j
  end.

(** The indices from [c] to the end of the items in direction [d]. *)
Definition towardsEnd (d : Direction) (its : list ListItem) (c k : Z) : Prop :=
  match d with
  | Up => 0 <= k <= c
  | Down => c <= k < JS.len its
  end.

End Items.

Arguments ListItem : clear implicits.
Arguments ListOptions : clear implicits.
Arguments ListModel : clear implicits.

End ListWidget.

(* ================================================================= *)
(** ** table.ts *)

Module Table.

(** Cell values ([unknown] in the source) and rows. A value is
    [undefined], [null], a boolean, an integer, a string, or any other
    value (a fraction, an array, an object), which is given by the text
    that [String] makes of it. A row is an object, its properties in an
    association list, or some value that is not an object
    ([typeof row !== 'object'], or [null]). *)
Inductive JsValue : Type :=
| JUndefined
| JNull
| JBool (b : bool)
| JNum (n : Z)
| JStr (s : string)
| JOther (text : string).

Inductive Row : Type :=
| RObject (props : list (string * JsValue))
| RNotObject (v : JsValue).

Inductive Align : Type := AlignLeft | AlignCenter | AlignRight.

Record TableColumn : Type := mkColumn {
  key : string;
  title : string;
  width : option Z;
  minWidth : option Z;
  maxWidth : option Z;
  align : option Align;
  format : option (JsValue -> Row -> string)
}.

Record TableBorder : Type := mkBorder {
  top : string; topLeft : string; topRight : string; topMid : string;
  bottom : string; bottomLeft : string; bottomRight : string;
  bottomMid : string;
  left : string; right : string; mid : string;
  midLeft : string; midRight : string; midMid : string;
  horizontal : string; vertical : string
}.

Inductive TableBorderName : Type :=
| none | simple | rounded | single | double | thick.

Definition TableBorders (name : TableBorderName) : TableBorder :=
  match name with
  | none =>
      mkBorder "" "" "" "" "" "" "" "" "" "" "" "" "" "" "" " "
  | simple =>
      mkBorder "-" "" "" "" "-" "" "" "" "" "" "-" "" "" "" "-" " | "
  | rounded =>
      mkBorder "─" "╭" "╮" "┬" "─" "╰" "╯" "┴" "│" "│" "─" "├" "┤" "┼" "─" "│"
  | single =>
      mkBorder "─" "┌" "┐" "┬" "─" "└" "┘" "┴" "│" "│" "─" "├" "┤" "┼" "─" "│"
  | double =>
      mkBorder "═" "╔" "╗" "╦" "═" "╚" "╝" "╩" "║" "║" "═" "╠" "╣" "╬" "═" "║"
  | thick =>
      mkBorder "━" "┏" "┓" "┳" "━" "┗" "┛" "┻" "┃" "┃" "━" "┣" "┫" "╋" "━" "┃"
  end.

Inductive BorderOption : Type :=
| BorderNamed (name : TableBorderName)
| BorderCustom (b : TableBorder).

Record TableOptions : Type := mkOptions {
  o_columns : list TableColumn;
  o_rows : option (list Row);
  o_border : option BorderOption;
  o_showHeader : option bool;
  o_showHeaderSeparator : option bool;
  o_padding : option Z;
  o_selected : option Z;
  o_cursor : option string;
  o_selectable : option bool
}.

Record TableModel : Type := mkModel {
  columns : list TableColumn;
  rows : list Row;
  border : TableBorder;
  showHeader : bool;
  showHeaderSeparator : bool;
  padding : Z;
  selected : Z;
  cursor : string;
  selectable : bool;
  columnWidths : list Z
}.

Definition orElse {A : Type} (o : option A) (d : A) : A :=
  match o with
  | Some a => a
  | None => d
  end.

(** [obj[key]]: [undefined] for a property the object does not have. *)
Fixpoint getProp (props : list (string * JsValue)) (k : string) : JsValue :=
  match props with
  | [] => JUndefined
  | (k', v) :: rest => if String.eqb k' k then v else getProp rest k
  end.

Definition getValue (row : Row) (col : TableColumn) : JsValue :=
  match row with
  | RObject props => getProp props (key col)
  | RNotObject _ => JUndefined
  end.

(** [String(value ?? '')]. *)
Definition stringOf (v : JsValue) : string :=
  match v with
  | JUndefined | JNull => ""
  | JBool true => "true"
  | JBool false => "false"
  | JNum n => JS.numToString n
  | JStr s => s
  | JOther text => text
  end.

(** [col.format ? col.format(value, row) : String(value ?? '')]. *)
Definition formatted (col : TableColumn) (row : Row) : string :=
  let v := getValue row col in
  match format col with
  | Some f => f v row
  | None => stringOf v
  end.

(** The body of the [columns.map] callback, which [createTable] and
    [setRows] both carry: the title width, widened by every row, then the
    constraints. *)
Definition computeWidth (rws : list Row) (col : TableColumn) : Z :=
  let w := fold_left (fun w row => Z.max w (JS.slen (formatted col row)))
                     rws (JS.slen (title col)) in
  if JS.truthyNum (width col) then orElse (width col) 0
  else
    let w := if JS.truthyNum (minWidth col)
             then Z.max w (orElse (minWidth col) 0) else w in
    let w := if JS.truthyNum (maxWidth col)
             then Z.min w (orElse (maxWidth col) 0) else w in
    w.

Definition createTable (options : TableOptions) : TableModel :=
  let bd := match o_border options with
            | Some (BorderNamed name) => TableBorders name
            | Some (BorderCustom b) => b
            | None => TableBorders single
            end in
  let rws := orElse (o_rows options) [] in
  let cols := o_columns options in
  let pad := orElse (o_padding options) 1 in
  let widths := map (computeWidth rws) cols in
  mkModel cols rws bd
          (orElse (o_showHeader options) true)
          (orElse (o_showHeaderSeparator options) true)
          pad
          (orElse (o_selected options) (-1))
          (orElse (o_cursor options) "→")
          (orElse (o_selectable options) false)
          widths.

Definition setRows (m : TableModel) (rws : list Row) : TableModel :=
  let widths := map (computeWidth rws) (columns m) in
  mkModel (columns m) rws (border m) (showHeader m) (showHeaderSeparator m)
          (padding m)
          (Z.min (selected m) (JS.len rws - 1))
          (cursor m) (selectable m)
          widths.

Definition selectRow (m : TableModel) (i : Z) : TableModel :=
  if (i <? -1) || (i >=? JS.len (rows m)) then m
  else mkModel (columns m) (rows m) (border m) (showHeader m)
               (showHeaderSeparator m) (padding m) i (cursor m)
               (selectable m) (columnWidths m).

Definition withSelected (m : TableModel) (n : Z) : TableModel :=
  mkModel (columns m) (rows m) (border m) (showHeader m)
          (showHeaderSeparator m) (padding m) n (cursor m)
          (selectable m) (columnWidths m).

Definition moveUp (m : TableModel) : TableModel :=
  if negb (selectable m) || (JS.len (rows m) =? 0) then m
  else
    let newSelected := if selected m <=? 0 then JS.len (rows m) - 1
                       else selected m - 1 in
    withSelected m newSelected.

Definition moveDown (m : TableModel) : TableModel :=
  if negb (selectable m) || (JS.len (rows m) =? 0) then m
  else
    let newSelected := if selected m >=? JS.len (rows m) - 1 then 0
                       else selected m + 1 in
    withSelected m newSelected.

Definition getSelected (m : TableModel) : option Row :=
  if (selected m <? 0) || (selected m >=? JS.len (rows m)) then None
  else JS.index (rows m) (selected m).

Definition padCell (text : string) (w : Z) (al : Align) : string :=
  if JS.slen text >=? w then JS.slice text 0 w
  else
    match al with
    | AlignRight => JS.padStart text w
    | AlignCenter =>
        let leftPad := (w - JS.slen text) / 2 in
        JS.padEnd (JS.padStart text (leftPad + JS.slen text)) w
    | AlignLeft => JS.padEnd text w
    end.

(** [renderBorderLine]; [None] is the RangeError of [repeat] for a
    negative count. *)
Definition renderBorderLine (m : TableModel)
           (l md r hz : string) : option string :=
  if negb (JS.truthyStr hz) then Some ""
  else
    match JS.mapM (fun w => JS.repeat hz (w + padding m * 2))
                  (columnWidths m) with
    | None => None
    | Some segments => Some (l ++ JS.join md segments ++ r)
    end.

(** One cell of [renderRow]. Reading [align] of a column that does not
    exist is a TypeError ([None]); for a width that does not exist
    ([undefined]) every branch of [padCell] returns the text as it is. *)
Definition renderCell (m : TableModel) (paddingStr : string)
           (ic : nat * string) : option string :=
  match nth_error (columns m) (fst ic) with
  | None => None
  | Some col =>
      let al := orElse (align col) AlignLeft in
      let padded := match nth_error (columnWidths m) (fst ic) with
                    | Some w => padCell (snd ic) w al
                    | None => snd ic
                    end in
      Some (paddingStr ++ padded ++ paddingStr)
  end.

Definition renderRow (m : TableModel) (cells : list string)
           (isSelected : bool) : option string :=
  match JS.repeat " " (padding m) with
  | None => None
  | Some paddingStr =>
      match JS.mapM (renderCell m paddingStr) (JS.indexed 0 cells) with
      | None => None
      | Some cellStrs =>
          let line := left (border m)
                      ++ JS.join (vertical (border m)) cellStrs
                      ++ right (border m) in
          Some (if selectable m
                then (if isSelected then cursor m ++ " " else "  ") ++ line
                else line)
      end
  end.

(** The lines that [view] collects before it joins them. *)
Definition pushIf (line : string) : list string :=
  if JS.truthyStr line then [line] else [].

Definition headerLines (m : TableModel) : option (list string) :=
  if showHeader m then
    match renderRow m (map title (columns m)) false with
    | None => None
    | Some hd =>
        if showHeaderSeparator m then
          match renderBorderLine m (midLeft (border m)) (midMid (border m))
                                 (midRight (border m)) (mid (border m)) with
          | None => None
          | Some sepLine => Some (hd :: pushIf sepLine)
          end
        else Some [hd]
    end
  else Some [].

Definition rowLine (m : TableModel) (ir : nat * Row) : option string :=
  let cells := map (fun col => formatted col (snd ir)) (columns m) in
  renderRow m cells (Z.of_nat (fst ir) =? selected m).

Definition viewLines (m : TableModel) : option (list string) :=
  let bd := border m in
  match renderBorderLine m (topLeft bd) (topMid bd) (topRight bd) (top bd) with
  | None => None
  | Some topLine =>
      match headerLines m with
      | None => None
      | Some hd =>
          match JS.mapM (rowLine m) (JS.indexed 0 (rows m)) with
          | None => None
          | Some body =>
              match renderBorderLine m (bottomLeft bd) (bottomMid bd)
                                     (bottomRight bd) (bottom bd) with
              | None => None
              | Some bottomLine =>
                  Some (pushIf topLine ++ hd ++ body ++ pushIf bottomLine)%list
              end
          end
      end
  end.

Definition view (m : TableModel) : option string :=
  match viewLines m with
  | None => None
  | Some lines => Some (JS.join JS.newline lines)
  end.


(** *** The column width as the specification words it *)

(** The largest of the title length and the lengths of the column's cell
    texts. *)
Definition contentWidth (rws : list Row) (col : TableColumn) : Z :=
  fold_right Z.max (JS.slen (title col))
             (map (fun row => JS.slen (formatted col row)) rws).

(** Clamping into [lo, hi], either bound optional. *)
Definition clampInto (lo hi : option Z) (w : Z) : Z :=
  let w := match lo with Some l => Z.max w l | None => w end in
  match hi with Some h => Z.min w h | None => w end.

(** The width sentence read literally: a constraint is specified when it
    is present. *)
Definition specWidth (rws : list Row) (col : TableColumn) : Z :=
  match width col with
  | Some w => w
  | None => clampInto (minWidth col) (maxWidth col) (contentWidth rws col)
  end.

(** A constraint given as 0 counts as not given. *)
Definition given (o : option Z) : option Z :=
  match o with
  | Some n => if n =? 0 then None else Some n
  | None => None
  end.

Definition specWidthNonzero (rws : list Row) (col : TableColumn) : Z :=
  match given (width col) with
  | Some w => w
  | None =>
      clampInto (given (minWidth col)) (given (maxWidth col))
                (contentWidth rws col)
  end.

End Table.

(* ================================================================= *)
(** ** timer.ts *)

Module Timer.

Inductive TimerMode : Type := countdown | stopwatch.

Inductive TimerState : Type := idle | running | paused | finished.

Record TimerOptions : Type := mkOptions {
  o_mode : option TimerMode;
  o_duration : option Z;
  o_elapsed : option Z;
  o_autoStart : option bool
}.

Record TimerModel : Type := mkModel {
  mode : TimerMode;
  duration : Z;
  elapsed : Z;
  state : TimerState;
  startTime : option Z;
  pauseTime : option Z
}.

Definition orElse {A : Type} (o : option A) (d : A) : A :=
  match o with
  | Some a => a
  | None => d
  end.

Definition isState (s t : TimerState) : bool :=
  match s, t with
  | idle, idle | running, running | paused, paused | finished, finished => true
  | _, _ => false
  end.

Definition isCountdown (md : TimerMode) : bool :=
  match md with
  | countdown => true
  | stopwatch => false
  end.

(** [model.startTime ? now - model.startTime : 0]. *)
Definition sinceStart (now : Z) (m : TimerModel) : Z :=
  if JS.truthyNum (startTime m) then now - orElse (startTime m) 0 else 0.

Definition start (now : Z) (m : TimerModel) : TimerModel :=
  if isState (state m) running then m
  else if isState (state m) finished then m
  else mkModel (mode m) (duration m) (elapsed m) running (Some now) None.

Definition pause (now : Z) (m : TimerModel) : TimerModel :=
  if negb (isState (state m) running) then m
  else
    let additionalElapsed := sinceStart now m in
    mkModel (mode m) (duration m) (elapsed m + additionalElapsed) paused
            None (Some now).

Definition resume (now : Z) (m : TimerModel) : TimerModel :=
  if negb (isState (state m) paused) then m
  else mkModel (mode m) (duration m) (elapsed m) running (Some now) None.

Definition toggle (now : Z) (m : TimerModel) : TimerModel :=
  match state m with
  | idle => start now m
  | running => pause now m
  | paused => resume now m
  | finished => m
  end.

Definition stop (m : TimerModel) : TimerModel :=
  mkModel (mode m) (duration m) 0 idle None None.

Definition reset (now : Z) (m : TimerModel) : TimerModel :=
  let wasRunning := isState (state m) running in
  mkModel (mode m) (duration m) 0
          (if wasRunning then running else idle)
          (if wasRunning then Some now else None)
          None.

Definition tick (now : Z) (m : TimerModel) : TimerModel :=
  if negb (isState (state m) running) then m
  else
    let totalElapsed := elapsed m + sinceStart now m in
    if isCountdown (mode m) && (totalElapsed >=? duration m)
    then mkModel (mode m) (duration m) (duration m) finished None (pauseTime m)
    else m.

Definition getElapsed (now : Z) (m : TimerModel) : Z :=
  if isState (state m) running && JS.truthyNum (startTime m)
  then elapsed m + (now - orElse (startTime m) 0)
  else elapsed m.

Definition createTimer (now : Z) (options : TimerOptions) : TimerModel :=
  let m := mkModel (orElse (o_mode options) stopwatch)
                   (orElse (o_duration options) 0)
                   (orElse (o_elapsed options) 0)
                   idle None None in
  if orElse (o_autoStart options) false then start now m else m.

Definition createCountdown (now : Z) (durationMs : Z) (autoStart : bool)
  : TimerModel :=
  createTimer now (mkOptions (Some countdown) (Some durationMs) None
                             (Some autoStart)).

Definition getRemaining (now : Z) (m : TimerModel) : Z :=
  if negb (isCountdown (mode m)) then 0
  else Z.max 0 (duration m - getElapsed now m).

Definition isFinished (m : TimerModel) : bool := isState (state m) finished.
Definition isRunning (m : TimerModel) : bool := isState (state m) running.
Definition isPaused (m : TimerModel) : bool := isState (state m) paused.

(** [String(n).padStart(2, '0')]. *)
Definition pad2 (n : Z) : string := JS.padStartWith "0" (JS.numToString n) 2.

(** [formatTime]; [Math.floor(a / b)] is [a / b], [a % b] is [Z.rem a b]. *)
Definition formatTime (ms : Z) (showMs : bool) : string :=
  let totalSeconds := ms / 1000 in
  let hours := totalSeconds / 3600 in
  let minutes := Z.rem totalSeconds 3600 / 60 in
  let seconds := Z.rem totalSeconds 60 in
  let milliseconds := Z.rem ms 1000 in
  let result := "" in
  let result := if hours >? 0 then result ++ pad2 hours ++ ":" else result in
  let result := result ++ pad2 minutes ++ ":" in
  let result := result ++ pad2 seconds in
  if showMs then result ++ "." ++ pad2 (milliseconds / 10) else result.

Definition formatTimeCompact (ms : Z) : string :=
  let totalSeconds := ms / 1000 in
  let hours := totalSeconds / 3600 in
  let minutes := Z.rem totalSeconds 3600 / 60 in
  let seconds := Z.rem totalSeconds 60 in
  if hours >? 0
  then JS.numToString hours ++ "h " ++ JS.numToString minutes ++ "m"
  else if minutes >? 0
  then JS.numToString minutes ++ "m " ++ JS.numToString seconds ++ "s"
  else JS.numToString seconds ++ "s".

Definition view (now : Z) (m : TimerModel) (showMs : bool) : string :=
  if isCountdown (mode m) then formatTime (getRemaining now m) showMs
  else formatTime (getElapsed now m) showMs.

End Timer.

(* ================================================================= *)
(** ** textinput.ts *)

Module TextInput.

Record TextInputModel : Type := mkModel {
  value : string;
  cursor : Z;
  placeholder : string;
  maxLength : Z;
  mask : option string;
  showCharCount : bool;
  width : Z;
  prompt : string;
  cursorChar : string;
  focused : bool
}.

(** [model.mask ? a : b]: a [null] mask and an empty mask are falsy. *)
Definition maskTruthy (m : TextInputModel) : bool :=
  JS.truthyOptStr (mask m).

Definition maskText (m : TextInputModel) : string :=
  match mask m with
  | Some k => k
  | None => ""
  end.

(** [view]; [None] is the RangeError of [repeat] with a negative count. *)
Definition view (m : TextInputModel) : option string :=
  let displayed :=
    match mask m with
    | Some k => JS.repeat k (JS.slen (value m))
    | None => Some (value m)
    end in
  match displayed with
  | None => None
  | Some displayValue =>
      let displayValue :=
        if (JS.slen displayValue =? 0) && JS.truthyStr (placeholder m)
           && negb (focused m)
        then placeholder m else displayValue in
      let withCursor :=
        if focused m then
          let before :=
            if maskTruthy m then JS.repeat (maskText m) (cursor m)
            else Some (JS.slice displayValue 0 (cursor m)) in
          let after :=
            if maskTruthy m
            then JS.repeat (maskText m) (JS.slen (value m) - cursor m)
            else Some (JS.sliceFrom displayValue (cursor m)) in
          match before, after with
          | Some b, Some a => Some (b ++ cursorChar m ++ a)
          | _, _ => None
          end
        else Some displayValue in
      match withCursor with
      | None => None
      | Some displayValue =>
          let displayValue :=
            if width m >? 0 then
              if JS.slen displayValue >? width m then
                let cursorInDisplay :=
                  cursor m + (if focused m then 1 else 0) in
                if cursorInDisplay >? width m then
                  let offset := cursorInDisplay - width m in
                  JS.slice displayValue offset (offset + width m)
                else JS.slice displayValue 0 (width m)
              else JS.padEnd displayValue (width m)
            else displayValue in
          let result := prompt m ++ displayValue in
          Some (if showCharCount m && (maxLength m >? 0)
                then result ++ " " ++ JS.numToString (JS.slen (value m))
                            ++ "/" ++ JS.numToString (maxLength m)
                else result)
      end
  end.

Record TextInputOptions : Type := mkOptions {
  o_value : option string;
  o_placeholder : option string;
  o_maxLength : option Z;
  o_mask : option string;
  o_showCharCount : option bool;
  o_width : option Z;
  o_prompt : option string;
  o_cursor : option string
}.

Definition orElse {A : Type} (o : option A) (d : A) : A :=
  match o with
  | Some a => a
  | None => d
  end.

Definition createTextInput (options : TextInputOptions) : TextInputModel :=
  let v := orElse (o_value options) "" in
  mkModel v (JS.slen v)
          (orElse (o_placeholder options) "")
          (orElse (o_maxLength options) 0)
          (o_mask options)
          (orElse (o_showCharCount options) false)
          (orElse (o_width options) 0)
          (orElse (o_prompt options) "")
          (orElse (o_cursor options) "â”‚")
          true.

(** [{ ...model, value: v, cursor: c }]. *)
Definition withValue (m : TextInputModel) (v : string) (c : Z)
  : TextInputModel :=
  mkModel v c (placeholder m) (maxLength m) (mask m) (showCharCount m)
          (width m) (prompt m) (cursorChar m) (focused m).

Definition withFocused (m : TextInputModel) (f : bool) : TextInputModel :=
  mkModel (value m) (cursor m) (placeholder m) (maxLength m) (mask m)
          (showCharCount m) (width m) (prompt m) (cursorChar m) f.

Definition setValue (m : TextInputModel) (v : string) : TextInputModel :=
  let newValue :=
    if (maxLength m >? 0) && (JS.slen v >? maxLength m)
    then JS.slice v 0 (maxLength m) else v in
  withValue m newValue (Z.min (cursor m) (JS.slen newValue)).

Definition focus (m : TextInputModel) : TextInputModel := withFocused m true.
Definition blur (m : TextInputModel) : TextInputModel := withFocused m false.

Definition setCursor (m : TextInputModel) (position : Z) : TextInputModel :=
  withValue m (value m) (Z.max 0 (Z.min position (JS.slen (value m)))).

Definition cursorLeft (m : TextInputModel) : TextInputModel :=
  setCursor m (cursor m - 1).

Definition cursorRight (m : TextInputModel) : TextInputModel :=
  setCursor m (cursor m + 1).

Definition cursorStart (m : TextInputModel) : TextInputModel :=
  setCursor m 0.

Definition cursorEnd (m : TextInputModel) : TextInputModel :=
  setCursor m (JS.slen (value m)).

Definition insert (m : TextInputModel) (char : string) : TextInputModel :=
  if (maxLength m >? 0) && (JS.slen (value m) >=? maxLength m) then m
  else
    let before := JS.slice (value m) 0 (cursor m) in
    let after := JS.sliceFrom (value m) (cursor m) in
    let newValue := before ++ char ++ after in
    let newValue :=
      if (maxLength m >? 0) && (JS.slen newValue >? maxLength m)
      then JS.slice newValue 0 (maxLength m) else newValue in
    withValue m newValue (cursor m + JS.slen char).

Definition backspace (m : TextInputModel) : TextInputModel :=
  if cursor m =? 0 then m
  else
    let before := JS.slice (value m) 0 (cursor m - 1) in
    let after := JS.sliceFrom (value m) (cursor m) in
    withValue m (before ++ after) (cursor m - 1).

Definition deleteChar (m : TextInputModel) : TextInputModel :=
  if cursor m =? JS.slen (value m) then m
  else
    let before := JS.slice (value m) 0 (cursor m) in
    let after := JS.sliceFrom (value m) (cursor m + 1) in
    withValue m (before ++ after) (cursor m).

Definition deleteToEnd (m : TextInputModel) : TextInputModel :=
  withValue m (JS.slice (value m) 0 (cursor m)) (cursor m).

Definition deleteToStart (m : TextInputModel) : TextInputModel :=
  withValue m (JS.sliceFrom (value m) (cursor m)) 0.

Definition clear (m : TextInputModel) : TextInputModel :=
  withValue m "" 0.

Section Words.

(** The test [/\s/.test(c)] on one character. *)
Variable isSpace : ascii -> bool.

(** [/\s/.test(s[i])]; outside the string the tested text is
    [undefined], which holds no white space. *)
Definition spaceAt (s : string) (i : Z) : bool :=
  match JS.charAt s i with
  | Some c => isSpace c
  | None => false
  end.

Definition deleteWordBackward (m : TextInputModel) : TextInputModel :=
  if cursor m =? 0 then m
  else
    let before := JS.slice (value m) 0 (cursor m) in
    let after := JS.sliceFrom (value m) (cursor m) in
    let fuel := S (String.length before) in
    let i := JS.slen before - 1 in
    let i := JS.whileF (fun i => (i >=? 0) && spaceAt before i) Z.pred fuel i in
    let i := JS.whileF (fun i => (i >=? 0) && negb (spaceAt before i))
                       Z.pred fuel i in
    withValue m (JS.slice before 0 (i + 1) ++ after) (i + 1).

Definition wordLeft (m : TextInputModel) : TextInputModel :=
  if cursor m =? 0 then m
  else
    let fuel := Z.to_nat (cursor m) in
    let i := cursor m - 1 in
    let i := JS.whileF (fun i => (i >? 0) && spaceAt (value m) i)
                       Z.pred fuel i in
    let i := JS.whileF (fun i => (i >? 0) && negb (spaceAt (value m) (i - 1)))
                       Z.pred fuel i in
    setCursor m i.

Definition wordRight (m : TextInputModel) : TextInputModel :=
  if cursor m =? JS.slen (value m) then m
  else
    let fuel := Z.to_nat (JS.slen (value m) - cursor m) in
    let i := cursor m in
    let i := JS.whileF (fun i => (i <? JS.slen (value m))
                                 && negb (spaceAt (value m) i))
                       Z.succ fuel i in
    let i := JS.whileF (fun i => (i <? JS.slen (value m))
                                 && spaceAt (value m) i)
                       Z.succ fuel i in
    setCursor m i.

End Words.

(** The cursor lies inside the value. *)
Definition cursorOk (m : TextInputModel) : Prop :=
  0 <= cursor m <= JS.slen (value m).

(** The value respects the maximum length, when there is one. *)
Definition lengthOk (m : TextInputModel) : Prop :=
  0 < maxLength m -> JS.slen (value m) <= maxLength m.

End TextInput.

(* ================================================================= *)
(** ** Sample inputs *)

Module Samples.

Definition item (t : string) : ListWidget.ListItem unit :=
  ListWidget.mkItem t None None None.

Definition disabledItem (t : string) : ListWidget.ListItem unit :=
  ListWidget.mkItem t None None (Some true).

Definition listOptions (its : list (ListWidget.ListItem unit))
           (sel h : option Z) : ListWidget.ListOptions unit :=
  ListWidget.mkOptions (Some its) sel h None None None None.

(** Five items, as in the tests of the list. *)
Definition testItems : list (ListWidget.ListItem unit) :=
  [item "Item 1"; item "Item 2"; item "Item 3"; item "Item 4"; item "Item 5"].

Definition created (its : list (ListWidget.ListItem unit))
           (sel h : option Z) : ListWidget.ListModel unit :=
  ListWidget.createList (listOptions its sel h).

(** [createList({ items: testItems, selected: 4, height: 3 })]. *)
Definition lastOfFive : ListWidget.ListModel unit :=
  ListWidget.createList (listOptions testItems (Some 4) (Some 3)).

(** [createList({ items: testItems, height: 3 })]. *)
Definition firstOfFive : ListWidget.ListModel unit :=
  ListWidget.createList (listOptions testItems None (Some 3)).

(** [createList({ items: [{ title: 'A', disabled: true }], height: 1 })]. *)
Definition onlyDisabled : ListWidget.ListModel unit :=
  ListWidget.createList (listOptions [disabledItem "A"] None (Some 1)).

(** Items [A, B(disabled), C(disabled)], selection on A, no height. *)
Definition disabledTail : ListWidget.ListModel unit :=
  ListWidget.createList
    (listOptions [item "A"; disabledItem "B"; disabledItem "C"] None None).

(** Items [A, B(disabled), C], selection on A, page size 1. *)
Definition disabledMiddle : ListWidget.ListModel unit :=
  ListWidget.createList
    (listOptions [item "A"; disabledItem "B"; item "C"] None (Some 1)).

(** [createList()]. *)
Definition emptyList : ListWidget.ListModel unit :=
  ListWidget.createList
    (ListWidget.mkOptions None None None None None None None).

(** The users table of the tests. *)
Definition userColumns : list Table.TableColumn :=
  [Table.mkColumn "name" "Name" None None None None None;
   Table.mkColumn "age" "Age" None None None (Some Table.AlignRight) None;
   Table.mkColumn "city" "City" None None None None None].

Definition user (name : string) (age : Z) (city : string) : Table.Row :=
  Table.RObject [("name", Table.JStr name); ("age", Table.JNum age);
                 ("city", Table.JStr city)].

Definition users : list Table.Row :=
  [user "Alice" 30 "NYC"; user "Bob" 25 "LA"; user "Charlie" 35 "Chicago"].

(** A column [{ key: 'name', title: 'Name' }] with the given constraints. *)
Definition nameColumn (w lo hi : option Z) : Table.TableColumn :=
  Table.mkColumn "name" "Name" w lo hi None None.

Definition person (name : string) : Table.Row :=
  Table.RObject [("name", Table.JStr name)].

Definition tableOptions (cols : list Table.TableColumn)
           (rws : list Table.Row) : Table.TableOptions :=
  Table.mkOptions cols (Some rws) None None None None None None None.

(** A running countdown of one second, started at time 5000. *)
Definition oneSecond : Timer.TimerModel :=
  Timer.createCountdown 5000 1000 true.

(** A focused password field holding [secret], the cursor at its end. *)
Definition password (secret : string) : TextInput.TextInputModel :=
  TextInput.mkModel secret 6 "" 0 (Some "*") false 0 "> " "|" true.

(** Items [A(disabled), B, C] with the selection on C. *)
Definition disabledHead : ListWidget.ListModel unit :=
  created [disabledItem "A"; item "B"; item "C"] (Some 2) None.

(** The users table, selectable, with the last row selected. *)
Definition usersTable : Table.TableModel :=
  Table.createTable
    (Table.mkOptions userColumns (Some users) None None None None
                     (Some 2) None (Some true)).

(** A column limited to the widths 3 to 6. *)
Definition boundedColumn : Table.TableColumn :=
  nameColumn None (Some 3) (Some 6).

(** [createTextInput({ value: 'hello world' })]. *)
Definition helloWorld : TextInput.TextInputModel :=
  TextInput.createTextInput
    (TextInput.mkOptions (Some "hello world") None None None None None None
                         None).

(** The same input ten characters wide, with an ASCII cursor. *)
Definition narrowHello : TextInput.TextInputModel :=
  TextInput.mkModel "hello world" 11 "" 0 None false 10 "> " "|" true.

(** A masked input holding [ab] with room for one more character. *)
Definition almostFull : TextInput.TextInputModel :=
  TextInput.mkModel "ab" 2 "" 3 (Some "*") false 0 "" "|" true.

(** White space, for the samples: blank and tab. *)
Definition isBlank (c : ascii) : bool :=
  Ascii.eqb c " " || Ascii.eqb c (ascii_of_nat 9).

End Samples.

(* ================================================================= *)
(** * Properties *)

(** ** Loops *)

Lemma whileF_inv {A : Type} (P : A -> Prop) (cond : A -> bool) (body : A -> A) :
  (forall s, P s -> cond s = true -> P (body s)) ->
  forall fuel s, P s -> P (JS.whileF cond body fuel s).
Proof.
  intros step fuel.
  induction fuel as [|fuel IH]; intros s Hs; simpl.
  - exact Hs.
  - destruct (cond s) eqn:E.
    + apply IH. now apply step.
    + exact Hs.
Qed.

(** When the loop condition is false in the state [whileF] returns, that
    state is the one in which the [while] loop exits. *)
Lemma whileF_exits {A : Type} (cond : A -> bool) (body : A -> A) :
  forall fuel s,
    cond (JS.whileF cond body fuel s) = false ->
    JS.while_exits cond body s (JS.whileF cond body fuel s).
Proof.
  induction fuel as [|fuel IH]; intros s H; simpl in *.
  - now constructor.
  - destruct (cond s) eqn:E.
    + apply JS.while_iter; [exact E | now apply IH].
    + now constructor.
Qed.

(** ** List *)

Section ListFacts.

Import ListWidget.

Context {T : Type}.

Implicit Types (m : ListModel T) (its : list (ListItem T)).

Lemma len_nonneg {A : Type} (l : list A) : 0 <= JS.len l.
Proof. unfold JS.len. lia. Qed.

Lemma len_zero_nil {A : Type} (l : list A) : JS.len l = 0 <-> l = [].
Proof.
  unfold JS.len. destruct l; simpl; split; intro H; try reflexivity;
    try discriminate; lia.
Qed.

Lemma isDisabled_outside its i :
  i < 0 \/ JS.len its <= i -> isDisabled its i = false.
Proof.
  unfold isDisabled, JS.index, JS.len. intros [H|H].
  - apply Z.ltb_lt in H. now rewrite H.
  - destruct (i <? 0); [reflexivity|].
    assert (E : nth_error its (Z.to_nat i) = None)
      by (apply nth_error_None; lia).
    now rewrite E.
Qed.

Lemma isDisabled_inside its i :
  isDisabled its i = true -> 0 <= i < JS.len its.
Proof.
  intros H.
  destruct (Z_lt_dec i 0) as [L|L].
  - rewrite isDisabled_outside in H by lia. discriminate.
  - destruct (Z_le_dec (JS.len its) i) as [G|G].
    + rewrite isDisabled_outside in H by lia. discriminate.
    + lia.
Qed.

Lemma updateOffset_items m : items (updateOffset m) = items m.
Proof. unfold updateOffset. now destruct (height m =? 0). Qed.

Lemma updateOffset_selected m : selected (updateOffset m) = selected m.
Proof. unfold updateOffset. now destruct (height m =? 0). Qed.

Lemma updateOffset_height m : height (updateOffset m) = height m.
Proof. unfold updateOffset. now destruct (height m =? 0). Qed.

Lemma updateOffset_offset m :
  offset (updateOffset m) =
    if height m =? 0 then 0
    else if selected m <? offset m then selected m
    else if selected m >=? offset m + height m
         then selected m - height m + 1
    else offset m.
Proof.
  unfold updateOffset.
  destruct (height m =? 0); simpl; [reflexivity|].
  now destruct (selected m <? offset m).
Qed.

(** An accepted selection [n]: the model that [updateOffset] returns for
    it has its window around [n]. *)
Lemma accept_ok m n :
  offsetOk m ->
  0 <= n < JS.len (items m) ->
  selectedOk (updateOffset (withSelected m n)) /\
  windowOk (updateOffset (withSelected m n)).
Proof.
  intros Hoff Hn. unfold selectedOk, windowOk, offsetOk in *.
  rewrite updateOffset_items, updateOffset_selected, updateOffset_height,
    updateOffset_offset.
  simpl.
  repeat split; try lia.
  - intros E. apply len_zero_nil in E. lia.
  - destruct (height m =? 0) eqn:E0; [lia|].
    destruct (n <? offset m) eqn:E1; [lia|].
    destruct (n >=? offset m + height m) eqn:E2; lia.
  - destruct (height m =? 0) eqn:E0; [lia|].
    destruct (n <? offset m) eqn:E1; [lia|].
    destruct (n >=? offset m + height m) eqn:E2; lia.
  - destruct (height m =? 0) eqn:E0; [lia|].
    specialize (Hoff H).
    destruct (n <? offset m) eqn:E1; [lia|].
    destruct (n >=? offset m + height m) eqn:E2; lia.
  - destruct (height m =? 0) eqn:E0; [lia|].
    specialize (Hoff H).
    destruct (n <? offset m) eqn:E1; [lia|].
    destruct (n >=? offset m + height m) eqn:E2; lia.
  - intros H. apply Z.eqb_eq in H. now rewrite H.
Qed.

Lemma windowOk_offsetOk m : windowOk m -> offsetOk m.
Proof. unfold windowOk, offsetOk. intros [H _] Hh. now apply H. Qed.

(** *** The skip loops stay inside the items *)

Lemma skip_up_range m fuel s :
  0 <= fst s < JS.len (items m) ->
  0 <= fst (JS.whileF (skipCond m) (upBody m) fuel s) < JS.len (items m).
Proof.
  apply (whileF_inv (fun s => 0 <= fst s < JS.len (items m))).
  intros [n a] H _. unfold upBody. simpl in *.
  destruct (n - 1 <? 0) eqn:E; [destruct (wrap m)|]; simpl; lia.
Qed.

Lemma skip_down_range m fuel s :
  0 <= fst s < JS.len (items m) ->
  0 <= fst (JS.whileF (skipCond m) (downBody m) fuel s) < JS.len (items m).
Proof.
  apply (whileF_inv (fun s => 0 <= fst s < JS.len (items m))).
  intros [n a] H _. unfold downBody. simpl in *.
  destruct (n + 1 >=? JS.len (items m)) eqn:E; [destruct (wrap m)|];
    simpl; lia.
Qed.

(** [moveToStart] stops at or before every enabled index. *)
Lemma start_loop_le m j fuel n :
  isDisabled (items m) j = false -> n <= j ->
  JS.whileF (startCond m) Z.succ fuel n <= j.
Proof.
  intros Hj.
  apply (whileF_inv (fun n => n <= j)).
  intros s Hs Hc. unfold startCond in Hc.
  apply andb_true_iff in Hc. destruct Hc as [Hd _].
  assert (s <> j) by (intros ->; congruence). lia.
Qed.

Lemma start_loop_ge m fuel n :
  0 <= n -> 0 <= JS.whileF (startCond m) Z.succ fuel n.
Proof.
  apply (whileF_inv (fun n => 0 <= n)). intros; lia.
Qed.

Lemma end_loop_ge m j fuel n :
  isDisabled (items m) j = false -> j <= n ->
  j <= JS.whileF (endCond m) Z.pred fuel n.
Proof.
  intros Hj.
  apply (whileF_inv (fun n => j <= n)).
  intros s Hs Hc. unfold endCond in Hc.
  apply andb_true_iff in Hc. destruct Hc as [Hd _].
  assert (s <> j) by (intros ->; congruence). lia.
Qed.

Lemma end_loop_lt m fuel n :
  n < JS.len (items m) ->
  JS.whileF (endCond m) Z.pred fuel n < JS.len (items m).
Proof.
  apply (whileF_inv (fun n => n < JS.len (items m))). intros; lia.
Qed.

(** [moveByPage]: unless the loop has returned the model, its index is
    inside the items. *)
Lemma page_loop_range m d fuel s :
  (snd s = false -> 0 <= fst s < JS.len (items m)) ->
  snd (JS.whileF (pageCond m) (pageBody m d) fuel s) = false ->
  0 <= fst (JS.whileF (pageCond m) (pageBody m d) fuel s) < JS.len (items m).
Proof.
  apply (whileF_inv
           (fun s => snd s = false -> 0 <= fst s < JS.len (items m))).
  intros [n r] _ _. unfold pageBody. simpl.
  intros H. apply orb_false_iff in H. lia.
Qed.

End ListFacts.

Section ListNavigation.

Import ListWidget.

Context {T : Type}.

Implicit Types (m : ListModel T) (its : list (ListItem T)).

Ltac no_items m :=
  let E := fresh "E" in
  destruct (JS.len (items m) =? 0) eqn:E; [assumption|];
  apply Z.eqb_neq in E.

Lemma moveUp_ok m : wellFormed m -> wellFormed (moveUp m).
Proof.
  intros WF. unfold moveUp. no_items m.
  destruct WF as [[Hsel _] Hwin].
  assert (Hne : items m <> []) by (intros C; apply len_zero_nil in C; lia).
  specialize (Hsel Hne).
  apply accept_ok; [now apply windowOk_offsetOk|].
  apply skip_up_range. simpl.
  destruct (selected m - 1 <? 0) eqn:E1; [destruct (wrap m)|]; lia.
Qed.

Lemma moveDown_ok m : wellFormed m -> wellFormed (moveDown m).
Proof.
  intros WF. unfold moveDown. no_items m.
  destruct WF as [[Hsel _] Hwin].
  assert (Hne : items m <> []) by (intros C; apply len_zero_nil in C; lia).
  specialize (Hsel Hne).
  apply accept_ok; [now apply windowOk_offsetOk|].
  apply skip_down_range. simpl.
  destruct (selected m + 1 >=? JS.len (items m)) eqn:E1;
    [destruct (wrap m)|]; lia.
Qed.

Lemma moveToStart_ok m :
  hasEnabled (items m) -> wellFormed m -> wellFormed (moveToStart m).
Proof.
  intros [j [Hj Hen]] WF. unfold moveToStart. no_items m.
  apply accept_ok; [now apply windowOk_offsetOk, WF|].
  split.
  - apply start_loop_ge. lia.
  - apply Z.le_lt_trans with j; [|lia].
    apply start_loop_le; [exact Hen | lia].
Qed.

Lemma moveToEnd_ok m :
  hasEnabled (items m) -> wellFormed m -> wellFormed (moveToEnd m).
Proof.
  intros [j [Hj Hen]] WF. unfold moveToEnd. no_items m.
  apply accept_ok; [now apply windowOk_offsetOk, WF|].
  split.
  - apply Z.le_trans with j; [lia|].
    apply end_loop_ge; [exact Hen | lia].
  - apply end_loop_lt. lia.
Qed.

Lemma moveByPage_ok m d : wellFormed m -> wellFormed (moveByPage m d).
Proof.
  intros WF. unfold moveByPage. no_items m.
  match goal with |- context [JS.whileF ?c ?b ?f ?s] =>
    remember (JS.whileF c b f s) as r eqn:Hr end.
  destruct (snd r) eqn:Hret; [exact WF|].
  apply accept_ok; [now apply windowOk_offsetOk, WF|].
  subst r. apply page_loop_range; [|exact Hret].
  simpl. intros _. pose proof (len_nonneg (items m)). lia.
Qed.

Lemma select_ok m i : wellFormed m -> wellFormed (select m i).
Proof.
  intros WF. unfold select.
  destruct ((i <? 0) || (i >=? JS.len (items m))) eqn:E; [exact WF|].
  destruct (isDisabled (items m) i); [exact WF|].
  apply orb_false_iff in E.
  apply accept_ok; [now apply windowOk_offsetOk, WF|]. lia.
Qed.

(** Navigation never touches the items or the height. *)
Lemma nav_items m c : items (nav m c) = items m.
Proof.
  destruct c; simpl;
    [unfold moveUp | unfold moveDown | unfold moveToStart | unfold moveToEnd
     | unfold moveByPage | unfold select];
    repeat match goal with
           | |- context [if ?b then _ else _] => destruct b
           end;
    try reflexivity; now rewrite updateOffset_items.
Qed.

Lemma nav_height m c : height (nav m c) = height m.
Proof.
  destruct c; simpl;
    [unfold moveUp | unfold moveDown | unfold moveToStart | unfold moveToEnd
     | unfold moveByPage | unfold select];
    repeat match goal with
           | |- context [if ?b then _ else _] => destruct b
           end;
    try reflexivity; now rewrite updateOffset_height.
Qed.

Lemma navAll_items m calls : items (navAll m calls) = items m.
Proof.
  unfold navAll. revert m.
  induction calls as [|c calls IH]; intros m; simpl; [reflexivity|].
  now rewrite IH, nav_items.
Qed.

Lemma navAll_height m calls : height (navAll m calls) = height m.
Proof.
  unfold navAll. revert m.
  induction calls as [|c calls IH]; intros m; simpl; [reflexivity|].
  now rewrite IH, nav_height.
Qed.

Lemma nav_ok m c :
  items m = [] \/ hasEnabled (items m) ->
  wellFormed m -> wellFormed (nav m c).
Proof.
  intros Hit WF.
  destruct c; simpl;
    try (now apply moveUp_ok); try (now apply moveDown_ok);
    try (now apply moveByPage_ok); try (now apply select_ok).
  - destruct Hit as [Hnil|Hen]; [|now apply moveToStart_ok].
    unfold moveToStart. apply len_zero_nil in Hnil. now rewrite Hnil.
  - destruct Hit as [Hnil|Hen]; [|now apply moveToEnd_ok].
    unfold moveToEnd. apply len_zero_nil in Hnil. now rewrite Hnil.
Qed.

Lemma navAll_ok m calls :
  items m = [] \/ hasEnabled (items m) ->
  selectedOk m -> windowOk m ->
  selectedOk (navAll m calls) /\ windowOk (navAll m calls).
Proof.
  unfold navAll. revert m.
  induction calls as [|c calls IH]; intros m Hit Hs Hw; simpl.
  - now split.
  - destruct (nav_ok m c Hit (conj Hs Hw)) as [Hs' Hw'].
    apply IH; try assumption. now rewrite nav_items.
Qed.

(** With height 0 every navigation call leaves the offset at 0. *)
Lemma nav_offset_zero m c :
  height m = 0 -> offset m = 0 -> offset (nav m c) = 0.
Proof.
  intros Hh Ho.
  destruct c; simpl;
    [unfold moveUp | unfold moveDown | unfold moveToStart | unfold moveToEnd
     | unfold moveByPage | unfold select];
    repeat match goal with
           | |- context [if ?b then _ else _] => destruct b
           end;
    try assumption; rewrite updateOffset_offset; simpl; now rewrite Hh.
Qed.

Lemma navAll_offset_zero m calls :
  height m = 0 -> offset m = 0 -> offset (navAll m calls) = 0.
Proof.
  unfold navAll. revert m.
  induction calls as [|c calls IH]; intros m Hh Ho; simpl; [assumption|].
  apply IH; [now rewrite nav_height | now apply nav_offset_zero].
Qed.

Lemma createList_selectedOk (options : ListOptions T) :
  selectedOk (createList options).
Proof.
  unfold selectedOk, createList. simpl. split.
  - intros Hne.
    assert (JS.len (orElse (o_items options) []) <> 0)
      by (intros C; now apply len_zero_nil in C).
    pose proof (len_nonneg (orElse (o_items options) [])). lia.
  - intros ->. unfold JS.len. simpl. lia.
Qed.

End ListNavigation.

Section ListLoops.

Import ListWidget.

Context {T : Type}.

Implicit Types (m : ListModel T) (its : list (ListItem T)).

(** *** Every loop exits within its bound *)

Lemma skip_loop_cond m (body : Z * Z -> Z * Z) :
  (forall s, snd (body s) = snd s + 1) ->
  forall fuel s,
    JS.len (items m) <= snd s + Z.of_nat fuel ->
    skipCond m (JS.whileF (skipCond m) body fuel s) = false.
Proof.
  intros Hbody.
  induction fuel as [|fuel IH]; intros s H; simpl.
  - unfold skipCond. apply andb_false_iff. right. apply Z.ltb_ge. lia.
  - destruct (skipCond m s) eqn:E; [|exact E].
    apply IH. rewrite Hbody. lia.
Qed.

Lemma moveUp_loop_exits m n :
  let s := JS.whileF (skipCond m) (upBody m) (List.length (items m)) (n, 0) in
  JS.while_exits (skipCond m) (upBody m) (n, 0) s.
Proof.
  apply whileF_exits, skip_loop_cond; [reflexivity|].
  simpl. unfold JS.len. lia.
Qed.

Lemma moveDown_loop_exits m n :
  let s := JS.whileF (skipCond m) (downBody m) (List.length (items m)) (n, 0) in
  JS.while_exits (skipCond m) (downBody m) (n, 0) s.
Proof.
  apply whileF_exits, skip_loop_cond; [reflexivity|].
  simpl. unfold JS.len. lia.
Qed.

Lemma start_loop_cond m fuel n :
  JS.len (items m) <= n + Z.of_nat fuel ->
  startCond m (JS.whileF (startCond m) Z.succ fuel n) = false.
Proof.
  revert n.
  induction fuel as [|fuel IH]; intros n H; simpl.
  - unfold startCond. apply andb_false_iff. right. apply Z.ltb_ge. lia.
  - destruct (startCond m n) eqn:E; [|exact E]. apply IH. lia.
Qed.

Lemma moveToStart_loop_exits m :
  JS.while_exits (startCond m) Z.succ 0
    (JS.whileF (startCond m) Z.succ (S (List.length (items m))) 0).
Proof.
  apply whileF_exits, start_loop_cond. unfold JS.len. lia.
Qed.

Lemma end_loop_cond m fuel n :
  n < Z.of_nat fuel ->
  endCond m (JS.whileF (endCond m) Z.pred fuel n) = false.
Proof.
  revert n.
  induction fuel as [|fuel IH]; intros n H; simpl.
  - unfold endCond. apply andb_false_iff. right.
    destruct (n >=? 0) eqn:E; [lia | reflexivity].
  - destruct (endCond m n) eqn:E; [|exact E]. apply IH. lia.
Qed.

Lemma moveToEnd_loop_exits m :
  JS.while_exits (endCond m) Z.pred (JS.len (items m) - 1)
    (JS.whileF (endCond m) Z.pred (S (List.length (items m)))
               (JS.len (items m) - 1)).
Proof.
  apply whileF_exits, end_loop_cond. unfold JS.len. lia.
Qed.

Lemma page_loop_cond m d fuel s :
  snd s = true \/
  match d with
  | Up => fst s < Z.of_nat fuel
  | Down => JS.len (items m) <= fst s + Z.of_nat fuel
  end ->
  pageCond m (JS.whileF (pageCond m) (pageBody m d) fuel s) = false.
Proof.
  revert s.
  induction fuel as [|fuel IH]; intros [n r] H; simpl in *.
  - unfold pageCond. simpl. destruct H as [->|H]; [reflexivity|].
    rewrite isDisabled_outside; [apply andb_false_r|].
    destruct d; lia.
  - destruct (pageCond m (n, r)) eqn:E; [|exact E].
    apply IH. unfold pageBody. simpl.
    destruct H as [->|H]; [discriminate|].
    destruct d; right; lia.
Qed.

Lemma moveByPage_loop_exits m d n :
  0 <= n < JS.len (items m) ->
  JS.while_exits (pageCond m) (pageBody m d) (n, false)
    (JS.whileF (pageCond m) (pageBody m d) (S (List.length (items m)))
               (n, false)).
Proof.
  intros Hn. apply whileF_exits, page_loop_cond. right. simpl.
  unfold JS.len in *. destruct d; lia.
Qed.

(** *** The stepping of [moveByPage] *)

Lemma whileF_step {A : Type} (cond : A -> bool) (body : A -> A) fuel s :
  JS.whileF cond body (S fuel) s =
    if cond s then JS.whileF cond body fuel (body s) else s.
Proof. reflexivity. Qed.

Lemma pageCond_running m n :
  pageCond m (n, false) = isDisabled (items m) n.
Proof. reflexivity. Qed.

Lemma page_returned m d fuel n :
  JS.whileF (pageCond m) (pageBody m d) fuel (n, true) = (n, true).
Proof. destruct fuel; reflexivity. Qed.

Lemma pageBody_down m n :
  0 <= n ->
  pageBody m Down (n, false) = (n + 1, JS.len (items m) <=? n + 1).
Proof.
  intros H. unfold pageBody. cbn [fst snd]. f_equal.
  replace (n + 1 <? 0) with false by (symmetry; apply Z.ltb_ge; lia).
  cbn [orb]. apply Z.geb_leb.
Qed.

Lemma pageBody_up m n :
  n < JS.len (items m) ->
  pageBody m Up (n, false) = (n - 1, n - 1 <? 0).
Proof.
  intros H. unfold pageBody. cbn [fst snd].
  replace (n + -1) with (n - 1) by lia. f_equal.
  replace (n - 1 >=? JS.len (items m)) with false; [apply orb_false_r|].
  symmetry. rewrite Z.geb_leb. apply Z.leb_gt. lia.
Qed.

Lemma page_down_found m (k : nat) :
  forall fuel n,
    (k <= fuel)%nat ->
    0 <= n -> n + Z.of_nat k < JS.len (items m) ->
    (forall i, n <= i < n + Z.of_nat k -> isDisabled (items m) i = true) ->
    isDisabled (items m) (n + Z.of_nat k) = false ->
    JS.whileF (pageCond m) (pageBody m Down) fuel (n, false)
    = (n + Z.of_nat k, false).
Proof.
  induction k as [|k IH]; intros fuel n Hf H0 Hlt Hdis Hen.
  - replace (n + Z.of_nat 0) with n in * by lia.
    destruct fuel; [reflexivity|].
    now rewrite whileF_step, pageCond_running, Hen.
  - destruct fuel as [|fuel]; [lia|].
    rewrite whileF_step, pageCond_running, Hdis by lia.
    rewrite pageBody_down by lia.
    replace (JS.len (items m) <=? n + 1) with false
      by (symmetry; apply Z.leb_gt; lia).
    rewrite (IH fuel (n + 1)); try lia.
    + f_equal. lia.
    + intros i Hi. apply Hdis. lia.
    + replace (n + 1 + Z.of_nat k) with (n + Z.of_nat (S k)) by lia.
      exact Hen.
Qed.

Lemma page_up_found m (k : nat) :
  forall fuel n,
    (k <= fuel)%nat ->
    0 <= n - Z.of_nat k -> n < JS.len (items m) ->
    (forall i, n - Z.of_nat k < i <= n -> isDisabled (items m) i = true) ->
    isDisabled (items m) (n - Z.of_nat k) = false ->
    JS.whileF (pageCond m) (pageBody m Up) fuel (n, false)
    = (n - Z.of_nat k, false).
Proof.
  induction k as [|k IH]; intros fuel n Hf H0 Hlt Hdis Hen.
  - replace (n - Z.of_nat 0) with n in * by lia.
    destruct fuel; [reflexivity|].
    now rewrite whileF_step, pageCond_running, Hen.
  - destruct fuel as [|fuel]; [lia|].
    rewrite whileF_step, pageCond_running, Hdis by lia.
    rewrite pageBody_up by lia.
    replace (n - 1 <? 0) with false by (symmetry; apply Z.ltb_ge; lia).
    rewrite (IH fuel (n - 1)); try lia.
    + f_equal. lia.
    + intros i Hi. apply Hdis. lia.
    + replace (n - 1 - Z.of_nat k) with (n - Z.of_nat (S k)) by lia.
      exact Hen.
Qed.

Lemma page_down_gives_up m (k : nat) :
  forall fuel n,
    (S k <= fuel)%nat ->
    0 <= n -> n + Z.of_nat (S k) = JS.len (items m) ->
    (forall i, n <= i < JS.len (items m) -> isDisabled (items m) i = true) ->
    snd (JS.whileF (pageCond m) (pageBody m Down) fuel (n, false)) = true.
Proof.
  induction k as [|k IH]; intros fuel n Hf H0 Hlen Hdis;
    (destruct fuel as [|fuel]; [lia|]);
    rewrite whileF_step, pageCond_running, Hdis by lia;
    rewrite pageBody_down by lia.
  - replace (JS.len (items m) <=? n + 1) with true
      by (symmetry; apply Z.leb_le; lia).
    now rewrite page_returned.
  - replace (JS.len (items m) <=? n + 1) with false
      by (symmetry; apply Z.leb_gt; lia).
    apply IH; try lia. intros i Hi. apply Hdis. lia.
Qed.

Lemma page_up_gives_up m (k : nat) :
  forall fuel n,
    (S k <= fuel)%nat ->
    n = Z.of_nat k -> n < JS.len (items m) ->
    (forall i, 0 <= i <= n -> isDisabled (items m) i = true) ->
    snd (JS.whileF (pageCond m) (pageBody m Up) fuel (n, false)) = true.
Proof.
  induction k as [|k IH]; intros fuel n Hf Hn Hlt Hdis;
    (destruct fuel as [|fuel]; [lia|]);
    rewrite whileF_step, pageCond_running, Hdis by lia;
    rewrite pageBody_up by lia.
  - replace (n - 1 <? 0) with true by (symmetry; apply Z.ltb_lt; lia).
    now rewrite page_returned.
  - replace (n - 1 <? 0) with false by (symmetry; apply Z.ltb_ge; lia).
    apply IH; try lia. intros i Hi. apply Hdis. lia.
Qed.

End ListLoops.

(** ** Calls that are accepted and calls that return their input *)

Section ListAccepting.

Import ListWidget.

Context {T : Type}.

Implicit Types (m : ListModel T) (its : list (ListItem T)).

(** A navigation call either returns the model it was given or accepts a
    selection inside the items and puts the window around it. *)
Lemma nav_returns_or_accepts m (c : Nav) :
  items m = [] \/ hasEnabled (items m) ->
  selectedOk m -> offsetOk m ->
  nav m c = m \/ wellFormed (nav m c).
Proof.
  intros Hit [Hsel Hnil] Hoff.
  destruct (JS.len (items m) =? 0) eqn:E0.
  - left. destruct c; simpl;
      [unfold moveUp | unfold moveDown | unfold moveToStart
       | unfold moveToEnd | unfold moveByPage | unfold select];
      rewrite ?E0; try reflexivity.
    apply Z.eqb_eq in E0.
    replace ((i <? 0) || (i >=? JS.len (items m))) with true
      by (symmetry; apply orb_true_iff; lia).
    reflexivity.
  - assert (Hlen : JS.len (items m) <> 0) by now apply Z.eqb_neq.
    assert (Hne : items m <> [])
      by (intros C; apply len_zero_nil in C; lia).
    specialize (Hsel Hne).
    destruct Hit as [Hempty|Hen]; [contradiction|].
    destruct c; simpl.
    + right. unfold moveUp. rewrite E0. apply accept_ok; [exact Hoff|].
      apply skip_up_range. simpl.
      destruct (selected m - 1 <? 0) eqn:E1; [destruct (wrap m)|]; lia.
    + right. unfold moveDown. rewrite E0. apply accept_ok; [exact Hoff|].
      apply skip_down_range. simpl.
      destruct (selected m + 1 >=? JS.len (items m)) eqn:E1;
        [destruct (wrap m)|]; lia.
    + right. unfold moveToStart. rewrite E0.
      destruct Hen as [j [Hj Hjen]].
      apply accept_ok; [exact Hoff|]. split.
      * apply start_loop_ge. lia.
      * apply Z.le_lt_trans with j; [|lia].
        apply start_loop_le; [exact Hjen | lia].
    + right. unfold moveToEnd. rewrite E0.
      destruct Hen as [j [Hj Hjen]].
      apply accept_ok; [exact Hoff|]. split.
      * apply Z.le_trans with j; [lia|].
        apply end_loop_ge; [exact Hjen | lia].
      * apply end_loop_lt. lia.
    + unfold moveByPage. rewrite E0.
      match goal with |- context [JS.whileF ?cd ?b ?f ?s] =>
        remember (JS.whileF cd b f s) as r eqn:Hr end.
      destruct (snd r) eqn:Hret; [now left|]. right.
      apply accept_ok; [exact Hoff|].
      subst r. apply page_loop_range; [|exact Hret].
      simpl. intros _. pose proof (len_nonneg (items m)). lia.
    + unfold select.
      destruct ((i <? 0) || (i >=? JS.len (items m))) eqn:E; [now left|].
      destruct (isDisabled (items m) i); [now left|]. right.
      apply orb_false_iff in E.
      apply accept_ok; [exact Hoff|]. lia.
Qed.

(** After any sequence of calls the selection and the offset are inside
    the items, and the window holds the selection unless the model is
    still the one the sequence started from. *)
Lemma navAll_window (m0 : ListModel T) (calls : list Nav) :
  forall m,
    items m = [] \/ hasEnabled (items m) ->
    selectedOk m -> offsetOk m ->
    windowOk m \/ m = m0 ->
    selectedOk (navAll m calls) /\ offsetOk (navAll m calls) /\
    (windowOk (navAll m calls) \/ navAll m calls = m0).
Proof.
  unfold navAll.
  induction calls as [|c calls IH]; intros m Hit Hs Ho Hw; simpl.
  - split; [exact Hs|]. split; [exact Ho | exact Hw].
  - destruct (nav_returns_or_accepts m c Hit Hs Ho) as [Heq|[Hs' Hw']].
    + rewrite Heq. now apply IH.
    + apply IH; try assumption.
      * now rewrite nav_items.
      * now apply windowOk_offsetOk.
      * now left.
Qed.

End ListAccepting.

(** ** List: the claims *)

Section ListClaims.

Import ListWidget.

Context {T : Type}.

Implicit Types (m : ListModel T) (its : list (ListItem T)).

(** C1, as amended. For a created model whose height is positive and
    whose items are none or include an enabled one, after any sequence of
    navigation calls [0 <= offset <= max(0, length-height)], and the
    selection lies inside the scroll window [offset .. offset+height-1]
    unless the model is still the created one (every call so far has
    returned its input) and the created selection lies at or beyond the
    height; for a created model of height 0 the offset is 0 after any
    sequence of navigation calls. *)
Theorem navigation_keeps_scroll_window
        (options : ListOptions T) (calls : list Nav) :
  let m0 := createList options in
  let m := navAll m0 calls in
  (0 < height m0 -> items m0 = [] \/ hasEnabled (items m0)) ->
  (height m0 = 0 -> offset m = 0) /\
  (0 < height m0 ->
   0 <= offset m <= Z.max 0 (JS.len (items m0) - height m0) /\
   ((offset m <= selected m <= offset m + height m0 - 1) \/
    (m = m0 /\ height m0 <= selected m0))).
Proof.
  intros m0 m Hit. split.
  - intros H0. now apply navAll_offset_zero.
  - intros Hpos.
    pose proof (createList_selectedOk options) as Hs0. fold m0 in Hs0.
    assert (Ho : offsetOk m0).
    { intros _. change (offset m0) with 0.
      pose proof (len_nonneg (items m0)). lia. }
    destruct (navAll_window m0 calls m0 (Hit Hpos) Hs0 Ho (or_intror eq_refl))
      as [Hs [Hoff Hwin]].
    fold m in Hs, Hoff, Hwin.
    assert (Hh : height m = height m0) by apply navAll_height.
    assert (Hi : items m = items m0) by apply navAll_items.
    unfold offsetOk in Hoff. rewrite Hh, Hi in Hoff.
    split; [now apply Hoff|].
    destruct Hwin as [[Hw _]|Heq].
    + left. rewrite Hh in Hw. now apply Hw.
    + destruct (Z_lt_dec (selected m0) (height m0)) as [Hlt|Hge].
      * left. rewrite Heq. change (offset m0) with 0.
        destruct Hs0 as [Hne Hnil].
        destruct (items m0) eqn:E.
        -- rewrite Hnil by reflexivity. lia.
        -- assert (Hn : l :: l0 <> []) by discriminate.
           specialize (Hne Hn). lia.
      * right. split; [exact Heq | lia].
Qed.

(** C4. [select] with an index outside the items, or the index of a
    disabled item, returns the model it was given. *)
Theorem select_fails_closed m (i : Z) :
  i < 0 \/ JS.len (items m) <= i \/
  (exists it, JS.index (items m) i = Some it /\ disabled it = Some true) ->
  select m i = m.
Proof.
  intros H. unfold select.
  destruct ((i <? 0) || (i >=? JS.len (items m))) eqn:E; [reflexivity|].
  apply orb_false_iff in E.
  destruct H as [H | [H | [it [Hit Hd]]]]; try lia.
  unfold isDisabled. now rewrite Hit, Hd.
Qed.

Lemma moveByPage_candidate m d :
  JS.len (items m) <> 0 ->
  moveByPage m d =
    let s := JS.whileF (pageCond m) (pageBody m d)
                       (S (List.length (items m)))
                       (pageCandidate m d, false) in
    if snd s then m else updateOffset (withSelected m (fst s)).
Proof.
  intros Hne. unfold moveByPage, pageCandidate.
  apply Z.eqb_neq in Hne. rewrite Hne.
  replace (height m >? 0) with (0 <? height m) by (symmetry; apply Z.gtb_ltb).
  destruct d; reflexivity.
Qed.

(** C5. For a model with items, [moveByPage] starts from the candidate
    [selected -/+ page] ([page] the height, 10 for no height) clamped into
    the items; it selects the first enabled index met when stepping from
    the candidate one index at a time in the direction of the page, and
    returns the model it was given when every index from the candidate to
    that end of the items is disabled. *)
Theorem moveByPage_steps_or_returns_model m d :
  items m <> [] ->
  let c := pageCandidate m d in
  0 <= c < JS.len (items m) /\
  (forall j,
      towardsEnd d (items m) c j ->
      isDisabled (items m) j = false ->
      (forall k, steppedOver d c j k -> isDisabled (items m) k = true) ->
      moveByPage m d = updateOffset (withSelected m j)) /\
  ((forall k, towardsEnd d (items m) c k -> isDisabled (items m) k = true) ->
   moveByPage m d = m).
Proof.
  intros Hne c.
  assert (Hlen : JS.len (items m) <> 0)
    by (intros C; now apply len_zero_nil in C).
  pose proof (len_nonneg (items m)) as Hpos.
  assert (Hc : 0 <= c < JS.len (items m))
    by (unfold c, pageCandidate; lia).
  assert (Hfuel : JS.len (items m) = Z.of_nat (List.length (items m)))
    by reflexivity.
  split; [exact Hc|]. split.
  - intros j Hj Hen Hdis.
    rewrite moveByPage_candidate by exact Hlen. fold c. cbv zeta.
    destruct d; simpl in Hj, Hdis.
    + rewrite (page_up_found m (Z.to_nat (c - j))); simpl;
        rewrite ?Z2Nat.id by lia; try lia.
      * now replace (c - (c - j)) with j by lia.
      * intros i Hi. apply Hdis. lia.
      * now replace (c - (c - j)) with j by lia.
    + rewrite (page_down_found m (Z.to_nat (j - c))); simpl;
        rewrite ?Z2Nat.id by lia; try lia.
      * now replace (c + (j - c)) with j by lia.
      * intros i Hi. apply Hdis. lia.
      * now replace (c + (j - c)) with j by lia.
  - intros Hdis.
    rewrite moveByPage_candidate by exact Hlen. fold c. cbv zeta.
    destruct d; simpl in Hdis.
    + rewrite (page_up_gives_up m (Z.to_nat c)); try reflexivity; try lia.
      intros i Hi. apply Hdis. lia.
    + rewrite (page_down_gives_up m (Z.to_nat (JS.len (items m) - c - 1)));
        try reflexivity; try lia.
      intros i Hi. apply Hdis. lia.
Qed.

(** C10. With no items [view] and [viewWith], whatever the renderer,
    return the empty string. *)
Theorem view_of_no_items m
        (renderItem : option (ListItem T) -> bool -> Z -> string) :
  items m = [] ->
  view m = Some "" /\ viewWith m renderItem = "".
Proof.
  intros H. unfold view, viewWith. now rewrite H.
Qed.

End ListClaims.

(** *** Closed instances for the list *)

Section ListInstances.

Import ListWidget.

(** C1, as stated, fails: [createList({ items: testItems, selected: 4,
    height: 3 })] has offset 0, and [select(model, 10)] returns that model
    as it is, so after this call the selection 4 is outside the window
    [0 .. 2]. *)
Lemma rejected_select_leaves_window_unset :
  let m := navAll Samples.lastOfFive [CallSelect 10] in
  height m = 3 /\ offset m = 0 /\ selected m = 4 /\ ~ windowOk m.
Proof.
  cbv zeta. repeat split.
  intros [H _]. specialize (H eq_refl). vm_compute in H.
  destruct H as [[_ H] _]. now apply H.
Qed.

Lemma navigation_keeps_scroll_window_witness :
  let m := navAll Samples.lastOfFive [CallSelect 10; CallMoveUp] in
  hasEnabled (items Samples.lastOfFive) /\
  selected m = 3 /\ offset m = 1 /\
  0 <= offset m <= Z.max 0 (JS.len (items Samples.lastOfFive)
                            - height Samples.lastOfFive) /\
  ((offset m <= selected m <= offset m + height Samples.lastOfFive - 1) \/
   (m = Samples.lastOfFive /\
    height Samples.lastOfFive <= selected Samples.lastOfFive)).
Proof.
  cbv zeta.
  assert (He : hasEnabled (items Samples.lastOfFive)).
  { exists 0. split; [split; [discriminate | reflexivity] | reflexivity]. }
  split; [exact He|]. split; [reflexivity|]. split; [reflexivity|].
  apply (proj2 (navigation_keeps_scroll_window
                  (Samples.listOptions Samples.testItems (Some 4) (Some 3))
                  [CallSelect 10; CallMoveUp]
                  (fun _ => or_intror He))).
  reflexivity.
Defined.

(** C2 fails on the code: on a list whose only item is disabled,
    [moveToStart] leaves the selection at [items.length] and [moveToEnd]
    at [-1] (and the offset at [-1]), both outside the items. *)
Theorem moveToStart_moveToEnd_overrun :
  let m := Samples.onlyDisabled in
  JS.len (items m) = 1 /\ selected m = 0 /\
  selected (moveToStart m) = 1 /\
  selected (moveToEnd m) = -1 /\ offset (moveToEnd m) = -1 /\
  ~ selectedOk (moveToStart m) /\ ~ selectedOk (moveToEnd m).
Proof.
  cbv zeta. repeat split.
  - intros [H _].
    assert (Hne : items (moveToStart Samples.onlyDisabled) <> [])
      by discriminate.
    specialize (H Hne). vm_compute in H. destruct H as [_ H]. discriminate.
  - intros [H _].
    assert (Hne : items (moveToEnd Samples.onlyDisabled) <> [])
      by discriminate.
    specialize (H Hne). vm_compute in H. destruct H as [H _]. now apply H.
Qed.

Lemma select_fails_closed_witness :
  (exists it, JS.index (items Samples.disabledMiddle) 1 = Some it /\
              disabled it = Some true) /\
  select Samples.disabledMiddle 1 = Samples.disabledMiddle.
Proof.
  assert (H : exists it, JS.index (items Samples.disabledMiddle) 1 = Some it /\
                         disabled it = Some true).
  { exists (Samples.disabledItem "B"). split; reflexivity. }
  split; [exact H|].
  apply (select_fails_closed Samples.disabledMiddle 1).
  right. right. exact H.
Defined.

Lemma moveByPage_steps_or_returns_model_witness :
  items Samples.disabledMiddle <> [] /\
  pageCandidate Samples.disabledMiddle Down = 1 /\
  moveByPage Samples.disabledMiddle Down
  = updateOffset (withSelected Samples.disabledMiddle 2) /\
  items Samples.disabledTail <> [] /\
  pageCandidate Samples.disabledTail Down = 2 /\
  moveByPage Samples.disabledTail Down = Samples.disabledTail.
Proof.
  assert (H1 : items Samples.disabledMiddle <> []) by discriminate.
  assert (H2 : items Samples.disabledTail <> []) by discriminate.
  split; [exact H1|]. split; [reflexivity|]. split.
  - apply (proj1 (proj2 (moveByPage_steps_or_returns_model
                           Samples.disabledMiddle Down H1)) 2).
    + split; [discriminate | reflexivity].
    + reflexivity.
    + intros k [Hk1 Hk2].
      assert (Hk : k = 1).
      { change (pageCandidate Samples.disabledMiddle Down) with 1 in Hk1.
        lia. }
      subst k. reflexivity.
  - split; [exact H2|]. split; [reflexivity|].
    apply (proj2 (proj2 (moveByPage_steps_or_returns_model
                           Samples.disabledTail Down H2))).
    intros k [Hk1 Hk2].
    assert (Hk : k = 2).
    { change (pageCandidate Samples.disabledTail Down) with 2 in Hk1.
      change (JS.len (items Samples.disabledTail)) with 3 in Hk2. lia. }
    subst k. reflexivity.
Defined.

Lemma view_of_no_items_witness :
  items Samples.emptyList = [] /\
  view Samples.emptyList = Some "" /\
  viewWith Samples.emptyList (fun _ _ _ => "row") = "".
Proof.
  split; [reflexivity|].
  apply (view_of_no_items Samples.emptyList). reflexivity.
Defined.

End ListInstances.

(** ** Table *)

Section TableFacts.

Import Table.

Implicit Types (m : TableModel) (col : TableColumn) (rws : list Row).

(** The running maximum of the [for] loop is the maximum of the spec. *)
Lemma fold_widths (f : Row -> Z) rws (w0 : Z) :
  fold_left (fun w row => Z.max w (f row)) rws w0
  = fold_right Z.max w0 (map f rws).
Proof.
  revert w0.
  induction rws as [|r rws IH]; intros w0; simpl; [reflexivity|].
  rewrite IH. clear IH.
  induction rws as [|r' rws IH]; simpl; lia.
Qed.

Lemma truthyNum_given (o : option Z) :
  JS.truthyNum o = match given o with Some _ => true | None => false end.
Proof.
  destruct o as [n|]; simpl; [|reflexivity]. now destruct (n =? 0).
Qed.

Lemma given_value (o : option Z) (n : Z) : given o = Some n -> orElse o 0 = n.
Proof.
  destruct o as [k|]; simpl; [|discriminate].
  destruct (k =? 0); [discriminate|]. now intros [= ->].
Qed.

Lemma computeWidth_spec rws col :
  computeWidth rws col = specWidthNonzero rws col.
Proof.
  unfold computeWidth, specWidthNonzero, clampInto, contentWidth.
  rewrite fold_widths, !truthyNum_given.
  destruct (given (width col)) as [w|] eqn:Ew;
    [now apply given_value|].
  destruct (given (minWidth col)) as [lo|] eqn:El;
    destruct (given (maxWidth col)) as [hi|] eqn:Eh;
    rewrite ?(given_value _ _ El), ?(given_value _ _ Eh); reflexivity.
Qed.

Lemma contentWidth_widened col pre post (r r' : Row) :
  JS.slen (formatted col r) <= JS.slen (formatted col r') ->
  contentWidth (pre ++ r :: post) col <= contentWidth (pre ++ r' :: post) col.
Proof.
  intros H. unfold contentWidth.
  induction pre as [|p pre IH]; simpl in *; lia.
Qed.

Lemma clampInto_mono (lo hi : option Z) (a b : Z) :
  a <= b -> clampInto lo hi a <= clampInto lo hi b.
Proof.
  intros H. unfold clampInto. destruct lo, hi; lia.
Qed.

Lemma computeWidth_widened col pre post (r r' : Row) :
  JS.slen (formatted col r) <= JS.slen (formatted col r') ->
  computeWidth (pre ++ r :: post) col <= computeWidth (pre ++ r' :: post) col.
Proof.
  intros H. rewrite !computeWidth_spec. unfold specWidthNonzero.
  destruct (given (width col)); [lia|].
  now apply clampInto_mono, contentWidth_widened.
Qed.

(** C3, as stated, fails: a fixed width of 0 and a maximum width of 0 are
    both ignored. For a column titled [Name] and no rows the code computes
    width 4 in both cases, where the sentence read literally gives 0. *)
Lemma zero_constraints_are_ignored :
  let cols := [Samples.nameColumn (Some 0) None None;
               Samples.nameColumn None None (Some 0)] in
  let m := createTable (Samples.tableOptions cols []) in
  columnWidths m = [4; 4] /\
  columnWidths (setRows m []) = [4; 4] /\
  map (specWidth []) cols = [0; 0] /\
  columnWidths m <> map (specWidth []) cols.
Proof.
  cbv zeta. repeat split. discriminate.
Qed.

(** C3, as amended. After [createTable] and after [setRows] each entry of
    [columnWidths] is: the column's fixed width when one is given and is
    not 0; otherwise the maximum of the title length and the lengths of
    the formatted cell texts of all rows, raised to [minWidth] when one is
    given and then lowered to [maxWidth] when one is given and is not 0. *)
Theorem columnWidths_follow_constraints :
  (forall options,
      columnWidths (createTable options)
      = map (specWidthNonzero (orElse (o_rows options) []))
            (o_columns options)) /\
  (forall m rws,
      columnWidths (setRows m rws) = map (specWidthNonzero rws) (columns m)).
Proof.
  split; intros; simpl; apply map_ext; intros col; apply computeWidth_spec.
Qed.

(** C6. Replacing one row by a row whose formatted cell text in column
    [i] is at least as long never lowers entry [i] of the [columnWidths]
    that [setRows] computes. This holds for every column; with a fixed
    width the two entries are equal. *)
Theorem widening_a_cell_never_narrows_column
        m (i : nat) col pre post (r r' : Row) :
  nth_error (columns m) i = Some col ->
  (String.length (formatted col r) <= String.length (formatted col r'))%nat ->
  exists w w',
    nth_error (columnWidths (setRows m (pre ++ r :: post))) i = Some w /\
    nth_error (columnWidths (setRows m (pre ++ r' :: post))) i = Some w' /\
    w <= w'.
Proof.
  intros Hcol Hlen.
  exists (computeWidth (pre ++ r :: post) col),
         (computeWidth (pre ++ r' :: post) col).
  simpl. split; [now apply map_nth_error|]. split; [now apply map_nth_error|].
  apply computeWidth_widened. unfold JS.slen. lia.
Qed.

Lemma widening_a_cell_never_narrows_column_witness :
  let m := createTable (Samples.tableOptions
                          [Samples.nameColumn None None None] []) in
  let bob := Samples.person "Bob" in
  let charlie := Samples.person "Charlie" in
  (String.length (formatted (Samples.nameColumn None None None) bob)
   <= String.length (formatted (Samples.nameColumn None None None) charlie))%nat
  /\
  exists w w',
    nth_error (columnWidths (setRows m [Samples.person "Al"; bob])) 0 = Some w /\
    nth_error (columnWidths (setRows m [Samples.person "Al"; charlie])) 0
    = Some w' /\
    w <= w'.
Proof.
  cbv zeta.
  assert (H : (String.length (formatted (Samples.nameColumn None None None)
                                        (Samples.person "Bob"))
               <= String.length (formatted (Samples.nameColumn None None None)
                                           (Samples.person "Charlie")))%nat).
  { vm_compute. repeat constructor. }
  split; [exact H|].
  apply (widening_a_cell_never_narrows_column
           (createTable (Samples.tableOptions
                           [Samples.nameColumn None None None] []))
           0 (Samples.nameColumn None None None)
           [Samples.person "Al"] [] (Samples.person "Bob")
           (Samples.person "Charlie")).
  - reflexivity.
  - exact H.
Defined.

(** C8. [setRows] returns the columns, border, header flags, padding,
    cursor and selectable flag of the model it was given. *)
Theorem setRows_frame m rws :
  columns (setRows m rws) = columns m /\
  border (setRows m rws) = border m /\
  showHeader (setRows m rws) = showHeader m /\
  showHeaderSeparator (setRows m rws) = showHeaderSeparator m /\
  padding (setRows m rws) = padding m /\
  cursor (setRows m rws) = cursor m /\
  selectable (setRows m rws) = selectable m.
Proof. repeat split. Qed.

End TableFacts.

(** ** Timer *)

Section TimerFacts.

Import Timer.

(** C7. A finished timer is returned as it is by [start], [tick] and
    [toggle]. A running countdown of 1000 ms whose elapsed time has
    reached 1000 ms is finished by one [tick] with [elapsed] set to 1000,
    and every later [tick] returns that model. *)
Theorem finished_timer_is_inert :
  (forall (now : Z) (m : TimerModel),
      state m = finished ->
      start now m = m /\ tick now m = m /\ toggle now m = m) /\
  (forall (now : Z) (m : TimerModel),
      mode m = countdown -> duration m = 1000 -> state m = running ->
      getElapsed now m = 1000 ->
      state (tick now m) = finished /\
      elapsed (tick now m) = 1000 /\
      forall later, tick later (tick now m) = tick now m).
Proof.
  split.
  - intros now m H. unfold start, tick, toggle. rewrite H. now repeat split.
  - intros now m Hmode Hdur Hrun Hel.
    assert (Ht : tick now m
                 = mkModel (mode m) (duration m) (duration m) finished None
                           (pauseTime m)).
    { unfold tick, getElapsed, sinceStart in *. rewrite Hrun in *.
      rewrite Hmode, Hdur. simpl in *.
      destruct (JS.truthyNum (startTime m)); rewrite Hel; reflexivity. }
    rewrite Ht. simpl. repeat split; try assumption.
Qed.

Lemma finished_timer_is_inert_witness :
  let m := Samples.oneSecond in
  mode m = countdown /\ duration m = 1000 /\ state m = running /\
  getElapsed 6000 m = 1000 /\
  state (tick 6000 m) = finished /\
  elapsed (tick 6000 m) = 1000 /\
  (forall later, tick later (tick 6000 m) = tick 6000 m) /\
  start 7000 (tick 6000 m) = tick 6000 m /\
  toggle 7000 (tick 6000 m) = tick 6000 m.
Proof.
  cbv zeta.
  pose proof (proj2 finished_timer_is_inert 6000 Samples.oneSecond
                    eq_refl eq_refl eq_refl eq_refl) as [H1 [H2 H3]].
  pose proof (proj1 finished_timer_is_inert 7000
                    (tick 6000 Samples.oneSecond) H1) as [H4 [_ H5]].
  repeat split; assumption.
Defined.

End TimerFacts.

(** ** TextInput *)

Section TextInputFacts.

Import TextInput.

(** C9. Two models with a mask that differ at most in [value], the two
    values of equal length, have the same [view]: the same text, or the
    same RangeError. *)
Theorem masked_view_depends_on_length (m1 m2 : TextInputModel) :
  cursor m1 = cursor m2 ->
  placeholder m1 = placeholder m2 ->
  maxLength m1 = maxLength m2 ->
  mask m1 = mask m2 ->
  showCharCount m1 = showCharCount m2 ->
  width m1 = width m2 ->
  prompt m1 = prompt m2 ->
  cursorChar m1 = cursorChar m2 ->
  focused m1 = focused m2 ->
  mask m1 <> None -> mask m2 <> None ->
  String.length (value m1) = String.length (value m2) ->
  view m1 = view m2.
Proof.
  destruct m1 as [v1 c1 p1 x1 k1 s1 w1 r1 cc1 f1].
  destruct m2 as [v2 c2 p2 x2 k2 s2 w2 r2 cc2 f2].
  simpl. intros -> -> -> -> -> -> -> -> -> Hk _ Hlen.
  destruct k2 as [k|]; [|contradiction].
  unfold view, maskTruthy, maskText, JS.slen. simpl.
  now rewrite Hlen.
Qed.

Lemma masked_view_depends_on_length_witness :
  String.length "secret" = String.length "hunter" /\
  view (Samples.password "secret") = view (Samples.password "hunter") /\
  view (Samples.password "secret") = Some "> ******|".
Proof.
  split; [reflexivity|]. split; [|reflexivity].
  apply (masked_view_depends_on_length
           (Samples.password "secret") (Samples.password "hunter"));
    try reflexivity; discriminate.
Defined.

End TextInputFacts.

(** ** The selection after [createList], [setItems] and [filter] *)

Section ListSelection.

Import ListWidget.

Context {T : Type}.

Lemma setItems_selectedOk (m : ListModel T) (its : list (ListItem T)) :
  0 <= selected m -> selectedOk (setItems m its).
Proof.
  intros H. unfold selectedOk, setItems. simpl.
  pose proof (len_nonneg its). split.
  - intros Hne.
    assert (JS.len its <> 0) by (intros C; now apply len_zero_nil in C).
    lia.
  - intros ->. unfold JS.len. simpl. lia.
Qed.

Lemma filter_selectedOk (m : ListModel T) (p : ListItem T -> bool) :
  0 <= selected m -> selectedOk (filter m p).
Proof. apply setItems_selectedOk. Qed.

End ListSelection.

(** ** The tests of the repository, run on the embedding *)

Section RepositoryTests.

Import ListWidget.

Example test_clamp_initial_selection :
  selected (Samples.created Samples.testItems (Some 10) None) = 4.
Proof. reflexivity. Qed.

Example test_moveUp_wraps :
  selected (moveUp (Samples.created Samples.testItems (Some 0) None)) = 4.
Proof. reflexivity. Qed.

Example test_moveUp_skips_disabled :
  selected (moveUp (Samples.created [Samples.item "Item 1";
                             Samples.disabledItem "Item 2";
                             Samples.item "Item 3"] (Some 2) None)) = 0.
Proof. reflexivity. Qed.

Example test_moveDown_wraps :
  selected (moveDown (Samples.created Samples.testItems (Some 4) None)) = 0.
Proof. reflexivity. Qed.

Example test_moveToEnd :
  selected (moveToEnd (Samples.created Samples.testItems (Some 1) None)) = 4.
Proof. reflexivity. Qed.

Example test_moveByPage :
  selected (moveByPage (Samples.created Samples.testItems (Some 0) (Some 3)) Down) = 3
  /\ selected (moveByPage (Samples.created Samples.testItems (Some 4) (Some 3)) Up) = 1
  /\ selected (moveByPage (Samples.created Samples.testItems (Some 3) (Some 3)) Down)
     = 4.
Proof. repeat split. Qed.

Example test_select_scrolls :
  offset (select (Samples.created Samples.testItems None (Some 2)) 3) = 2.
Proof. reflexivity. Qed.

Example test_select_out_of_range :
  selected (select (Samples.created Samples.testItems None None) 10) = 0.
Proof. reflexivity. Qed.

Example test_view_window :
  view (Samples.created Samples.testItems None (Some 2))
  = Some ("> Item 1" ++ JS.newline ++ "  Item 2").
Proof. reflexivity. Qed.

Example test_table_widths :
  Table.columnWidths
    (Table.createTable
       (Samples.tableOptions Samples.userColumns Samples.users))
  = [7; 3; 7].
Proof. reflexivity. Qed.

Example test_setRows_recalculates :
  let t := Table.createTable
             (Samples.tableOptions Samples.userColumns
                                   [Samples.user "A" 1 "B"]) in
  Table.columnWidths t = [4; 3; 4] /\
  Table.columnWidths (Table.setRows t Samples.users) = [7; 3; 7].
Proof. split; reflexivity. Qed.

Example test_countdown_finishes :
  Timer.state (Timer.tick 6000 Samples.oneSecond) = Timer.finished /\
  Timer.state (Timer.tick 5999 Samples.oneSecond) = Timer.running.
Proof. split; reflexivity. Qed.

Example test_mask_characters :
  TextInput.view (Samples.password "secret") = Some "> ******|".
Proof. reflexivity. Qed.

End RepositoryTests.

(* ================================================================= *)
(** * Further properties of the list *)

Section ListJumps.

Import ListWidget.

Context {T : Type}.

Implicit Types (m : ListModel T) (its : list (ListItem T)).

Lemma moveToStart_selected m :
  JS.len (items m) <> 0 ->
  selected (moveToStart m)
  = JS.whileF (startCond m) Z.succ (S (List.length (items m))) 0.
Proof.
  intros H. unfold moveToStart. apply Z.eqb_neq in H. rewrite H.
  now rewrite updateOffset_selected.
Qed.

Lemma moveToEnd_selected m :
  JS.len (items m) <> 0 ->
  selected (moveToEnd m)
  = JS.whileF (endCond m) Z.pred (S (List.length (items m)))
              (JS.len (items m) - 1).
Proof.
  intros H. unfold moveToEnd. apply Z.eqb_neq in H. rewrite H.
  now rewrite updateOffset_selected.
Qed.

Lemma hasEnabled_len its : hasEnabled its -> JS.len its <> 0.
Proof. intros [j [Hj _]]. lia. Qed.

(** X1. When some item is enabled, [moveToStart] selects the first
    enabled item: the selected index is inside the items, its item is not
    disabled, and every item before it is disabled. *)
Theorem moveToStart_selects_first_enabled m :
  hasEnabled (items m) ->
  let j := selected (moveToStart m) in
  0 <= j < JS.len (items m) /\
  isDisabled (items m) j = false /\
  (forall i, 0 <= i < j -> isDisabled (items m) i = true).
Proof.
  intros Hen. pose proof (hasEnabled_len _ Hen) as Hlen.
  cbv zeta. rewrite moveToStart_selected by exact Hlen.
  set (n := JS.whileF (startCond m) Z.succ (S (List.length (items m))) 0).
  assert (Hinv : 0 <= n /\ forall i, 0 <= i < n -> isDisabled (items m) i = true).
  { unfold n.
    apply (whileF_inv
             (fun n => 0 <= n /\
                       forall i, 0 <= i < n -> isDisabled (items m) i = true)).
    - intros s [Hs Hall] Hc. unfold startCond in Hc.
      apply andb_true_iff in Hc. destruct Hc as [Hd _].
      split; [lia|]. intros i Hi.
      destruct (Z.eq_dec i s) as [->|Hne]; [exact Hd | apply Hall; lia].
    - split; [lia | intros; lia]. }
  destruct Hinv as [H0 Hall].
  destruct Hen as [k [Hk Hken]].
  assert (Hle : n <= k) by (apply start_loop_le; [exact Hken | lia]).
  assert (Hexit : startCond m n = false).
  { apply start_loop_cond. unfold JS.len. lia. }
  unfold startCond in Hexit. apply andb_false_iff in Hexit.
  repeat split; try lia; try assumption.
  destruct Hexit as [H|H]; [exact H|]. apply Z.ltb_ge in H. lia.
Qed.

(** X2. When some item is enabled, [moveToEnd] selects the last enabled
    item. *)
Theorem moveToEnd_selects_last_enabled m :
  hasEnabled (items m) ->
  let j := selected (moveToEnd m) in
  0 <= j < JS.len (items m) /\
  isDisabled (items m) j = false /\
  (forall i, j < i < JS.len (items m) -> isDisabled (items m) i = true).
Proof.
  intros Hen. pose proof (hasEnabled_len _ Hen) as Hlen.
  cbv zeta. rewrite moveToEnd_selected by exact Hlen.
  set (n := JS.whileF (endCond m) Z.pred (S (List.length (items m)))
                      (JS.len (items m) - 1)).
  assert (Hinv : n < JS.len (items m) /\
                 forall i, n < i < JS.len (items m) ->
                           isDisabled (items m) i = true).
  { unfold n.
    apply (whileF_inv
             (fun n => n < JS.len (items m) /\
                       forall i, n < i < JS.len (items m) ->
                                 isDisabled (items m) i = true)).
    - intros s [Hs Hall] Hc. unfold endCond in Hc.
      apply andb_true_iff in Hc. destruct Hc as [Hd _].
      split; [lia|]. intros i Hi.
      destruct (Z.eq_dec i s) as [->|Hne]; [exact Hd | apply Hall; lia].
    - split; [lia | intros; lia]. }
  destruct Hinv as [H0 Hall].
  destruct Hen as [k [Hk Hken]].
  assert (Hge : k <= n) by (apply end_loop_ge; [exact Hken | lia]).
  assert (Hexit : endCond m n = false).
  { apply end_loop_cond. unfold JS.len. lia. }
  unfold endCond in Hexit. apply andb_false_iff in Hexit.
  repeat split; try lia; try assumption.
  destruct Hexit as [H|H]; [exact H|].
  destruct (n >=? 0) eqn:E; [discriminate | lia].
Qed.

End ListJumps.

Section ListSkipping.

Import ListWidget.

Context {T : Type}.

Implicit Types (m : ListModel T) (its : list (ListItem T)).

Lemma skip_up_visits m (c : Z) :
  wrap m = true -> 0 <= c < JS.len (items m) ->
  forall fuel,
    let s := JS.whileF (skipCond m) (upBody m) fuel (c, 0) in
    (snd s <= c /\ fst s = c - snd s /\
     forall j, c - snd s < j <= c -> isDisabled (items m) j = true) \/
    (c < snd s <= JS.len (items m) /\
     fst s = JS.len (items m) - (snd s - c) /\
     (forall j, 0 <= j <= c -> isDisabled (items m) j = true) /\
     (forall j, fst s < j < JS.len (items m) ->
                isDisabled (items m) j = true)).
Proof.
  intros Hw Hc fuel. cbv zeta.
  apply (whileF_inv
           (fun s =>
              (snd s <= c /\ fst s = c - snd s /\
               forall j, c - snd s < j <= c -> isDisabled (items m) j = true) \/
              (c < snd s <= JS.len (items m) /\
               fst s = JS.len (items m) - (snd s - c) /\
               (forall j, 0 <= j <= c -> isDisabled (items m) j = true) /\
               (forall j, fst s < j < JS.len (items m) ->
                          isDisabled (items m) j = true)))).
  - intros [n a] Hinv Hcond. unfold skipCond in Hcond. simpl in *.
    apply andb_true_iff in Hcond. destruct Hcond as [Hd Ha].
    apply Z.ltb_lt in Ha. unfold upBody. simpl. rewrite Hw.
    destruct Hinv as [[H1 [H2 H3]] | [H1 [H2 [H3 H4]]]].
    + destruct (n - 1 <? 0) eqn:E.
      * apply Z.ltb_lt in E. right. repeat split; try lia;
          intros j Hj; (destruct (Z.eq_dec j n) as [->|Hne];
                        [exact Hd | first [apply H3; lia | exfalso; lia]]).
      * apply Z.ltb_ge in E. left. repeat split; try lia;
          intros j Hj; (destruct (Z.eq_dec j n) as [->|Hne];
                        [exact Hd | first [apply H3; lia | exfalso; lia]]).
    + assert (E : (n - 1 <? 0) = false) by (apply Z.ltb_ge; lia).
      rewrite E. right. repeat split; try lia; try assumption;
        intros j Hj; (destruct (Z.eq_dec j n) as [->|Hne];
                      [exact Hd | first [apply H4; lia | exfalso; lia]]).
  - left. simpl. repeat split; lia.
Qed.

Lemma skip_down_visits m (c : Z) :
  wrap m = true -> 0 <= c < JS.len (items m) ->
  forall fuel,
    let s := JS.whileF (skipCond m) (downBody m) fuel (c, 0) in
    (0 <= snd s /\ c + snd s < JS.len (items m) /\ fst s = c + snd s /\
     forall j, c <= j < c + snd s -> isDisabled (items m) j = true) \/
    (JS.len (items m) <= c + snd s /\ snd s <= JS.len (items m) /\
     fst s = c + snd s - JS.len (items m) /\
     (forall j, c <= j < JS.len (items m) -> isDisabled (items m) j = true) /\
     (forall j, 0 <= j < fst s -> isDisabled (items m) j = true)).
Proof.
  intros Hw Hc fuel. cbv zeta.
  apply (whileF_inv
           (fun s =>
              (0 <= snd s /\ c + snd s < JS.len (items m) /\
               fst s = c + snd s /\
               forall j, c <= j < c + snd s ->
                         isDisabled (items m) j = true) \/
              (JS.len (items m) <= c + snd s /\ snd s <= JS.len (items m) /\
               fst s = c + snd s - JS.len (items m) /\
               (forall j, c <= j < JS.len (items m) ->
                          isDisabled (items m) j = true) /\
               (forall j, 0 <= j < fst s -> isDisabled (items m) j = true)))).
  - intros [n a] Hinv Hcond. unfold skipCond in Hcond. simpl in *.
    apply andb_true_iff in Hcond. destruct Hcond as [Hd Ha].
    apply Z.ltb_lt in Ha. unfold downBody. simpl. rewrite Hw.
    destruct Hinv as [[H0 [H1 [H2 H3]]] | [H0 [H1 [H2 [H3 H4]]]]].
    + destruct (n + 1 >=? JS.len (items m)) eqn:E.
      * assert (n + 1 >= JS.len (items m)) by lia.
        right. repeat split; try lia;
          intros j Hj; (destruct (Z.eq_dec j n) as [->|Hne];
                        [exact Hd | first [apply H3; lia | exfalso; lia]]).
      * assert (n + 1 < JS.len (items m)) by lia.
        left. repeat split; try lia;
          intros j Hj; (destruct (Z.eq_dec j n) as [->|Hne];
                        [exact Hd | first [apply H3; lia | exfalso; lia]]).
    + assert (E : (n + 1 >=? JS.len (items m)) = false) by lia.
      rewrite E. right. repeat split; try lia; try assumption;
        intros j Hj; (destruct (Z.eq_dec j n) as [->|Hne];
                      [exact Hd | first [apply H4; lia | exfalso; lia]]).
  - left. simpl. repeat split; lia.
Qed.

(** X3. With [wrap] set and at least one enabled item, [moveUp] and
    [moveDown] from a selection inside the items never rest on a disabled
    item. *)
Theorem wrapping_moves_reach_enabled m :
  wrap m = true ->
  hasEnabled (items m) ->
  0 <= selected m < JS.len (items m) ->
  isDisabled (items m) (selected (moveUp m)) = false /\
  isDisabled (items m) (selected (moveDown m)) = false.
Proof.
  intros Hw [k [Hk Hken]] Hsel.
  assert (Hlen : (JS.len (items m) =? 0) = false) by (apply Z.eqb_neq; lia).
  split.
  - unfold moveUp. rewrite Hlen, updateOffset_selected, Hw. simpl.
    set (c := if selected m - 1 <? 0 then JS.len (items m) - 1
              else selected m - 1).
    assert (Hc : 0 <= c < JS.len (items m))
      by (unfold c; destruct (selected m - 1 <? 0) eqn:E; lia).
    pose proof (skip_up_visits m c Hw Hc (List.length (items m))) as Hv.
    assert (Hexit : skipCond m (JS.whileF (skipCond m) (upBody m)
                                  (List.length (items m)) (c, 0)) = false).
    { apply skip_loop_cond; [reflexivity|]. simpl. unfold JS.len. lia. }
    cbv zeta in Hv.
    destruct (JS.whileF (skipCond m) (upBody m)
                        (List.length (items m)) (c, 0)) as [n a].
    unfold skipCond in Hexit. simpl in *.
    apply andb_false_iff in Hexit. destruct Hexit as [H|H]; [exact H|].
    apply Z.ltb_ge in H. exfalso.
    destruct Hv as [[H1 _] | [H1 [H2 [H3 H4]]]]; [lia|].
    assert (Hd : isDisabled (items m) k = true).
    { destruct (Z_le_dec k c); [apply H3 | apply H4]; lia. }
    congruence.
  - unfold moveDown. rewrite Hlen, updateOffset_selected, Hw. simpl.
    set (c := if selected m + 1 >=? JS.len (items m) then 0
              else selected m + 1).
    assert (Hc : 0 <= c < JS.len (items m))
      by (unfold c; destruct (selected m + 1 >=? JS.len (items m)) eqn:E; lia).
    pose proof (skip_down_visits m c Hw Hc (List.length (items m))) as Hv.
    assert (Hexit : skipCond m (JS.whileF (skipCond m) (downBody m)
                                  (List.length (items m)) (c, 0)) = false).
    { apply skip_loop_cond; [reflexivity|]. simpl. unfold JS.len. lia. }
    cbv zeta in Hv.
    destruct (JS.whileF (skipCond m) (downBody m)
                        (List.length (items m)) (c, 0)) as [n a].
    unfold skipCond in Hexit. simpl in *.
    apply andb_false_iff in Hexit. destruct Hexit as [H|H]; [exact H|].
    apply Z.ltb_ge in H. exfalso.
    destruct Hv as [[_ [H1 _]] | [H0 [H1 [H2 [H3 H4]]]]]; [lia|].
    assert (Hd : isDisabled (items m) k = true).
    { destruct (Z_lt_dec k c); [apply H4 | apply H3]; lia. }
    congruence.
Qed.

End ListSkipping.

Section ListScrolling.

Import ListWidget.

Context {T : Type}.

Implicit Types (m : ListModel T) (its : list (ListItem T)).

Lemma withOffset_same m : withOffset m (offset m) = m.
Proof. now destruct m. Qed.

(** X4. [updateOffset] scrolls only when it has to: a model whose
    selection is already inside the window (or whose height is 0 and
    offset 0) is returned as it is, and for a height that is not negative
    a second [updateOffset] changes nothing. *)
Theorem updateOffset_minimal m :
  (0 < height m -> offset m <= selected m < offset m + height m ->
   updateOffset m = m) /\
  (0 <= height m -> updateOffset (updateOffset m) = updateOffset m).
Proof.
  assert (Hin : forall m', 0 < height m' ->
                           offset m' <= selected m' < offset m' + height m' ->
                           updateOffset m' = m').
  { intros m' Hh Hwin. unfold updateOffset.
    replace (height m' =? 0) with false by (symmetry; apply Z.eqb_neq; lia).
    replace (selected m' >=? offset m' + height m') with false by lia.
    replace (selected m' <? offset m') with false by lia.
    apply withOffset_same. }
  split; [apply Hin|].
  intros Hh. destruct (Z.eq_dec (height m) 0) as [H0|H0].
  - unfold updateOffset at 1. rewrite updateOffset_height.
    replace (height m =? 0) with true by (symmetry; now apply Z.eqb_eq).
    replace 0 with (offset (updateOffset m)) at 1.
    + apply withOffset_same.
    + rewrite updateOffset_offset.
      now replace (height m =? 0) with true by (symmetry; now apply Z.eqb_eq).
  - apply Hin; rewrite ?updateOffset_height, ?updateOffset_selected,
      ?updateOffset_offset; [lia|].
    replace (height m =? 0) with false by (symmetry; now apply Z.eqb_neq).
    destruct (selected m <? offset m) eqn:E1; [lia|].
    destruct (selected m >=? offset m + height m) eqn:E2; lia.
Qed.

Lemma updateOffset_frame m :
  cursor (updateOffset m) = cursor m /\
  uncursor (updateOffset m) = uncursor m /\
  showDescriptions (updateOffset m) = showDescriptions m /\
  wrap (updateOffset m) = wrap m.
Proof. unfold updateOffset. now destruct (height m =? 0). Qed.

Lemma nav_look m c :
  cursor (nav m c) = cursor m /\
  uncursor (nav m c) = uncursor m /\
  showDescriptions (nav m c) = showDescriptions m /\
  wrap (nav m c) = wrap m.
Proof.
  destruct c; simpl;
    [unfold moveUp | unfold moveDown | unfold moveToStart | unfold moveToEnd
     | unfold moveByPage | unfold select];
    repeat match goal with
           | |- context [if ?b then _ else _] => destruct b eqn:?
           end;
    try (repeat split; reflexivity);
    match goal with
    | |- context [updateOffset ?x] =>
        destruct (updateOffset_frame x) as [A [B [C D]]];
        rewrite A, B, C, D; simpl; repeat split; assumption
    end.
Qed.

(** X5. Navigation changes the selection and the offset only: after any
    sequence of navigation calls the items, the height, the cursor
    strings, the description flag and the wrap flag are those of the
    model the sequence started from. *)
Theorem navigation_frame m (calls : list Nav) :
  items (navAll m calls) = items m /\
  height (navAll m calls) = height m /\
  cursor (navAll m calls) = cursor m /\
  uncursor (navAll m calls) = uncursor m /\
  showDescriptions (navAll m calls) = showDescriptions m /\
  wrap (navAll m calls) = wrap m.
Proof.
  split; [apply navAll_items|]. split; [apply navAll_height|].
  unfold navAll. revert m.
  induction calls as [|c calls IH]; intros m; simpl.
  - now repeat split.
  - destruct (IH (nav m c)) as [H1 [H2 [H3 H4]]].
    destruct (nav_look m c) as [G1 [G2 [G3 G4]]].
    repeat split; congruence.
Qed.

(** X6. [select] of an index inside the items whose item is not disabled
    is accepted: the index becomes the selection, [getSelected] returns
    its item, and for a positive height it lies inside the scroll
    window. *)
Theorem select_then_getSelected m (i : Z) (it : ListItem T) :
  JS.index (items m) i = Some it ->
  disabled it <> Some true ->
  selected (select m i) = i /\
  getSelected (select m i) = Some it /\
  (0 < height m ->
   offset (select m i) <= i <= offset (select m i) + height m - 1).
Proof.
  intros Hit Hd.
  assert (Hr : 0 <= i < JS.len (items m)).
  { unfold JS.index in Hit. destruct (i <? 0) eqn:E; [discriminate|].
    assert (Hl : (Z.to_nat i < List.length (items m))%nat)
      by (apply nth_error_Some; congruence).
    unfold JS.len. lia. }
  assert (He : isDisabled (items m) i = false).
  { unfold isDisabled. rewrite Hit.
    destruct (disabled it) as [[|]|]; try reflexivity. now contradiction Hd. }
  assert (Hs : select m i = updateOffset (withSelected m i)).
  { unfold select. rewrite He.
    now replace ((i <? 0) || (i >=? JS.len (items m))) with false
      by (symmetry; apply orb_false_iff; lia). }
  rewrite Hs. unfold getSelected.
  rewrite updateOffset_items, updateOffset_selected, updateOffset_offset.
  simpl. repeat split; try assumption.
  - destruct (height m =? 0) eqn:E0; [lia|].
    destruct (i <? offset m) eqn:E1; [lia|].
    destruct (i >=? offset m + height m) eqn:E2; lia.
  - destruct (height m =? 0) eqn:E0; [lia|].
    destruct (i <? offset m) eqn:E1; [lia|].
    destruct (i >=? offset m + height m) eqn:E2; lia.
Qed.

Lemma filter_filter {A : Type} (p q : A -> bool) (l : list A) :
  List.filter q (List.filter p l) = List.filter (fun a => p a && q a) l.
Proof.
  induction l as [|a l IH]; simpl; [reflexivity|].
  destruct (p a) eqn:Ep; simpl; [|exact IH].
  destruct (q a); now rewrite IH.
Qed.

Lemma filter_length_le {A : Type} (p : A -> bool) (l : list A) :
  JS.len (List.filter p l) <= JS.len l.
Proof.
  unfold JS.len. induction l as [|a l IH]; simpl; [lia|].
  destruct (p a); simpl; lia.
Qed.

(** X7. Filtering twice is filtering once by both predicates: the items,
    the clamped selection and the offset agree. *)
Theorem filter_twice m (p q : ListItem T -> bool) :
  filter (filter m p) q = filter m (fun it => p it && q it).
Proof.
  unfold filter, setItems. simpl. rewrite filter_filter.
  pose proof (filter_length_le q (List.filter p (items m))) as Hle.
  rewrite filter_filter in Hle.
  f_equal. lia.
Qed.

(** [viewLines] throws exactly when it has a line to render at a
    negative index. *)
Lemma viewLines_none m (n : nat) (i : Z) :
  ((0 < n)%nat -> i + Z.of_nat n <= JS.len (items m)) ->
  (viewLines m n i = None <-> (0 < n)%nat /\ i < 0).
Proof.
  revert i. induction n as [|n IH]; intros i Hle; simpl.
  - split; [discriminate | intros [H _]; lia].
  - assert (Hle' : i + Z.of_nat (S n) <= JS.len (items m))
      by (apply Hle; lia).
    clear Hle. rename Hle' into Hle.
    unfold JS.index. destruct (i <? 0) eqn:E.
    + split; [intros _; lia | reflexivity].
    + apply Z.ltb_ge in E.
      destruct (nth_error (items m) (Z.to_nat i)) as [it|] eqn:Hit.
      * destruct (viewLines m n (i + 1)) as [rest|] eqn:Hrest.
        -- split; [discriminate | intros [_ H]; lia].
        -- apply IH in Hrest; [lia | lia].
      * apply nth_error_None in Hit. unfold JS.len in Hle. lia.
Qed.

(** X8. [view] throws (reading [title] of [undefined]) exactly when the
    list has items and its window starts at a negative offset with at
    least one row to show; with an offset that is not negative it always
    returns a string. *)
Theorem view_throws_iff m :
  view m = None <->
  items m <> [] /\ offset m < 0 /\ offset m < visibleEnd m.
Proof.
  unfold view.
  destruct (JS.len (items m) =? 0) eqn:E0.
  - apply Z.eqb_eq, len_zero_nil in E0.
    split; [discriminate | intros [H _]; contradiction].
  - apply Z.eqb_neq in E0.
    assert (Hne : items m <> []) by (intros C; apply len_zero_nil in C; lia).
    assert (Hve : visibleEnd m <= JS.len (items m))
      by (unfold visibleEnd; destruct (height m >? 0); lia).
    unfold visibleStart.
    destruct (viewLines m (Z.to_nat (visibleEnd m - offset m)) (offset m))
      as [ls|] eqn:Hv.
    + split; [discriminate|]. intros [_ [H1 H2]].
      assert (Hn : viewLines m (Z.to_nat (visibleEnd m - offset m)) (offset m)
                   = None) by (apply viewLines_none; lia).
      congruence.
    + apply viewLines_none in Hv; [|lia].
      split; [|reflexivity]. intros _. repeat split; try assumption; lia.
Qed.

End ListScrolling.

(* ================================================================= *)
(** * Strings *)

Section StringFacts.

Lemma length_append (a b : string) :
  String.length (a ++ b) = (String.length a + String.length b)%nat.
Proof. induction a as [|c a IH]; simpl; [reflexivity | now rewrite IH]. Qed.

Lemma slen_append (a b : string) : JS.slen (a ++ b) = JS.slen a + JS.slen b.
Proof. unfold JS.slen. rewrite length_append. lia. Qed.

Lemma slen_nonneg (s : string) : 0 <= JS.slen s.
Proof. unfold JS.slen. lia. Qed.

Lemma length_repeatNat (s : string) (n : nat) :
  String.length (JS.repeatNat s n) = (n * String.length s)%nat.
Proof.
  induction n as [|n IH]; simpl; [reflexivity|].
  now rewrite length_append, IH.
Qed.

Lemma slen_spaces (n : nat) : JS.slen (JS.repeatNat " " n) = Z.of_nat n.
Proof. unfold JS.slen. rewrite length_repeatNat. simpl. lia. Qed.

Lemma length_substring (s : string) :
  forall n k, String.length (substring n k s)
              = Nat.min k (String.length s - n).
Proof.
  induction s as [|c s IH]; intros n k.
  - destruct n, k; reflexivity.
  - destruct n as [|n]; simpl.
    + destruct k as [|k]; simpl; [reflexivity|].
      rewrite IH. now rewrite Nat.sub_0_r.
    + apply IH.
Qed.

Lemma substring_split (s : string) :
  forall n, (n <= String.length s)%nat ->
            substring 0 n s ++ substring n (String.length s - n) s = s.
Proof.
  induction s as [|c s IH]; intros n Hn.
  - destruct n; [reflexivity | simpl in Hn; lia].
  - destruct n as [|n]; simpl.
    + f_equal. specialize (IH 0%nat (Nat.le_0_l _)).
      rewrite Nat.sub_0_r in IH.
      assert (E : substring 0 0 s = "") by (destruct s; reflexivity).
      now rewrite E in IH.
    + f_equal. apply IH. simpl in Hn. lia.
Qed.

Lemma substring_append_left (a b : string) :
  substring 0 (String.length a) (a ++ b) = a.
Proof.
  induction a as [|c a IH]; simpl.
  - destruct b; reflexivity.
  - now rewrite IH.
Qed.

Lemma substring_append_right (a b : string) (k : nat) :
  substring (String.length a) k (a ++ b) = substring 0 k b.
Proof. induction a as [|c a IH]; simpl; [reflexivity | exact IH]. Qed.

Lemma substring_all (s : string) : substring 0 (String.length s) s = s.
Proof. induction s as [|c s IH]; simpl; [reflexivity | now rewrite IH]. Qed.

(** [s.slice(0, n)] and [s.slice(n)] for a position inside the string. *)
Lemma slice_prefix (s : string) (n : Z) :
  0 <= n <= JS.slen s -> JS.slice s 0 n = substring 0 (Z.to_nat n) s.
Proof.
  intros H. unfold JS.slice, JS.slicePos.
  replace (0 <? 0) with false by reflexivity.
  replace (n <? 0) with false by (symmetry; apply Z.ltb_ge; lia).
  replace (Z.min 0 (JS.slen s)) with 0 by lia.
  replace (Z.min n (JS.slen s)) with n by lia.
  simpl. now replace (Z.max (n - 0) 0) with n by lia.
Qed.

Lemma sliceFrom_suffix (s : string) (n : Z) :
  0 <= n <= JS.slen s ->
  JS.sliceFrom s n
  = substring (Z.to_nat n) (String.length s - Z.to_nat n) s.
Proof.
  intros H. unfold JS.sliceFrom, JS.slice, JS.slicePos.
  replace (n <? 0) with false by (symmetry; apply Z.ltb_ge; lia).
  pose proof (slen_nonneg s).
  replace (JS.slen s <? 0) with false by (symmetry; apply Z.ltb_ge; lia).
  replace (Z.min n (JS.slen s)) with n by lia.
  replace (Z.min (JS.slen s) (JS.slen s)) with (JS.slen s) by lia.
  f_equal. unfold JS.slen in *. lia.
Qed.

Lemma slice_split (s : string) (n : Z) :
  0 <= n <= JS.slen s -> JS.slice s 0 n ++ JS.sliceFrom s n = s.
Proof.
  intros H. rewrite slice_prefix, sliceFrom_suffix by exact H.
  apply substring_split. unfold JS.slen in H. lia.
Qed.

Lemma slen_slice_prefix (s : string) (n : Z) :
  0 <= n -> JS.slen (JS.slice s 0 n) = Z.min n (JS.slen s).
Proof.
  intros H. unfold JS.slice, JS.slicePos.
  replace (0 <? 0) with false by reflexivity.
  replace (n <? 0) with false by (symmetry; apply Z.ltb_ge; lia).
  pose proof (slen_nonneg s).
  replace (Z.min 0 (JS.slen s)) with 0 by lia.
  unfold JS.slen in *. simpl. rewrite length_substring. lia.
Qed.

Lemma slen_sliceFrom (s : string) (n : Z) :
  0 <= n <= JS.slen s -> JS.slen (JS.sliceFrom s n) = JS.slen s - n.
Proof.
  intros H. rewrite sliceFrom_suffix by exact H.
  unfold JS.slen in *. rewrite length_substring. lia.
Qed.

(** The length of [parts.join(sep)] depends on the lengths of the parts
    only. *)
Lemma slen_join (sep : string) (l1 : list string) :
  forall l2, map JS.slen l1 = map JS.slen l2 ->
             JS.slen (JS.join sep l1) = JS.slen (JS.join sep l2).
Proof.
  unfold JS.join.
  induction l1 as [|a l1 IH]; intros [|b l2] H; simpl in H;
    try discriminate; [reflexivity|].
  injection H as Hab Hrest. specialize (IH l2 Hrest).
  destruct l1 as [|a' l1], l2 as [|b' l2]; simpl in Hrest;
    try discriminate; [exact Hab|].
  change (JS.slen (a ++ sep ++ String.concat sep (a' :: l1))
          = JS.slen (b ++ sep ++ String.concat sep (b' :: l2))).
  rewrite !slen_append, Hab, IH. reflexivity.
Qed.

End StringFacts.

(* ================================================================= *)
(** * Further properties of the table *)

Section TableSelection.

Import Table.

Implicit Types (m : TableModel) (col : TableColumn) (rws : list Row).

Lemma index_inside {A : Type} (l : list A) (i : Z) :
  0 <= i < JS.len l -> exists a, JS.index l i = Some a.
Proof.
  intros H. unfold JS.index, JS.len in *.
  replace (i <? 0) with false by (symmetry; apply Z.ltb_ge; lia).
  destruct (nth_error l (Z.to_nat i)) as [a|] eqn:E; [now exists a|].
  apply nth_error_None in E. lia.
Qed.

(** X9. [selectRow] returns the model it was given for an index below -1
    or past the last row; an index of a row becomes the selection and
    [getSelected] then returns that row; after [selectRow(model, -1)]
    nothing is selected. *)
Theorem selectRow_then_getSelected m (i : Z) :
  (i < -1 \/ JS.len (rows m) <= i -> selectRow m i = m) /\
  (0 <= i < JS.len (rows m) ->
   selected (selectRow m i) = i /\
   exists row, JS.index (rows m) i = Some row /\
               getSelected (selectRow m i) = Some row) /\
  getSelected (selectRow m (-1)) = None.
Proof.
  pose proof (len_nonneg (rows m)) as Hlen.
  split; [|split].
  - intros H. unfold selectRow.
    now replace ((i <? -1) || (i >=? JS.len (rows m))) with true
      by (symmetry; apply orb_true_iff; lia).
  - intros H. unfold selectRow.
    replace ((i <? -1) || (i >=? JS.len (rows m))) with false
      by (symmetry; apply orb_false_iff; lia).
    split; [reflexivity|].
    destruct (index_inside (rows m) i H) as [row Hrow].
    exists row. split; [exact Hrow|].
    unfold getSelected. simpl.
    now replace ((i <? 0) || (i >=? JS.len (rows m))) with false
      by (symmetry; apply orb_false_iff; lia).
  - unfold selectRow.
    replace ((-1 <? -1) || (-1 >=? JS.len (rows m))) with false
      by (symmetry; apply orb_false_iff; lia).
    reflexivity.
Qed.


Lemma withSelected_same m : withSelected m (selected m) = m.
Proof. now destruct m. Qed.

(** X11. On a selectable table with rows and a row selected, [moveUp]
    undoes [moveDown] and [moveDown] undoes [moveUp], also across the
    wrap at both ends. *)
Theorem table_moves_are_inverse m :
  selectable m = true -> rows m <> [] ->
  0 <= selected m < JS.len (rows m) ->
  moveUp (moveDown m) = m /\ moveDown (moveUp m) = m.
Proof.
  intros Hs Hne Hsel.
  assert (Hl : (JS.len (rows m) =? 0) = false) by (apply Z.eqb_neq; lia).
  destruct m as [cols rws bd sh shs pad sel cur sl ws].
  simpl in *. subst sl.
  unfold moveUp, moveDown, withSelected. simpl. rewrite Hl. simpl.
  rewrite Hl. simpl.
  destruct (sel >=? JS.len rws - 1) eqn:E1;
    destruct (sel <=? 0) eqn:E2; simpl;
    repeat match goal with
           | |- context [if ?b then _ else _] => destruct b eqn:?
           end;
    split; f_equal; lia.
Qed.

End TableSelection.

Section TableRendering.

Import Table.

Implicit Types (m : TableModel) (col : TableColumn) (rws : list Row).

Lemma padCell_slen (text : string) (w : Z) (al : Align) :
  0 <= w -> JS.slen (padCell text w al) = w.
Proof.
  intros Hw. unfold padCell.
  pose proof (slen_nonneg text) as Ht.
  destruct (JS.slen text >=? w) eqn:E.
  - rewrite slen_slice_prefix by exact Hw. lia.
  - assert (Hlt : JS.slen text < w) by lia.
    destruct al; unfold JS.padEnd, JS.padStart;
      rewrite ?slen_append, ?slen_spaces, ?slen_append, ?slen_spaces;
      try lia.
    assert (Hd : 0 <= (w - JS.slen text) / 2 <= w - JS.slen text).
    { split; [apply Z.div_pos; lia|].
      apply Z.div_le_upper_bound; lia. }
    lia.
Qed.

Lemma append_assoc (a b c : string) : (a ++ b) ++ c = a ++ b ++ c.
Proof. induction a as [|x a IH]; simpl; [reflexivity | now rewrite IH]. Qed.

Lemma append_nil_r (a : string) : a ++ "" = a.
Proof. induction a as [|x a IH]; simpl; [reflexivity | now rewrite IH]. Qed.

(** X12. For a width that is not negative, [padCell] returns a text of
    exactly that width, whatever the alignment; a text that fits is kept
    whole, with blanks before or after it, and only a longer text is
    cut. *)
Theorem padCell_width (text : string) (w : Z) (al : Align) :
  0 <= w ->
  JS.slen (padCell text w al) = w /\
  (JS.slen text <= w ->
   exists l r, padCell text w al
               = JS.repeatNat " " l ++ text ++ JS.repeatNat " " r).
Proof.
  intros Hw. split; [now apply padCell_slen|].
  intros Hfit. unfold padCell.
  destruct (JS.slen text >=? w) eqn:E.
  - exists 0%nat, 0%nat. simpl.
    assert (Heq : w = JS.slen text) by lia.
    rewrite slice_prefix by lia. rewrite Heq.
    unfold JS.slen. rewrite Nat2Z.id, substring_all.
    now rewrite append_nil_r.
  - destruct al; unfold JS.padEnd, JS.padStart.
    + exists 0%nat. eexists. reflexivity.
    + eexists. eexists. rewrite append_assoc. reflexivity.
    + eexists. exists 0%nat. simpl. now rewrite append_nil_r.
Qed.

Lemma fold_max_ge (l : list Z) (w0 : Z) :
  w0 <= fold_right Z.max w0 l /\
  forall x, In x l -> x <= fold_right Z.max w0 l.
Proof.
  induction l as [|a l [IH1 IH2]]; simpl.
  - split; [lia | intros x []].
  - split; [lia|]. intros x [->|Hx]; [lia|]. specialize (IH2 x Hx). lia.
Qed.

(** X13. A column without a fixed width and without a maximum width is
    wide enough for its title and for the formatted text of every row; a
    minimum width is respected when no maximum applies, and a maximum
    width is never exceeded. *)
Theorem computed_width_bounds rws col :
  JS.truthyNum (width col) = false ->
  (JS.truthyNum (maxWidth col) = false ->
   JS.slen (title col) <= computeWidth rws col /\
   (forall row, In row rws ->
                JS.slen (formatted col row) <= computeWidth rws col) /\
   (forall lo, minWidth col = Some lo -> lo <= computeWidth rws col)) /\
  (forall hi, maxWidth col = Some hi -> hi <> 0 ->
              computeWidth rws col <= hi).
Proof.
  intros Hw. unfold computeWidth. rewrite Hw, fold_widths.
  set (content := fold_right Z.max (JS.slen (title col))
                             (map (fun row => JS.slen (formatted col row)) rws)).
  destruct (fold_max_ge (map (fun row => JS.slen (formatted col row)) rws)
                        (JS.slen (title col))) as [Ht Hrows].
  fold content in Ht, Hrows.
  pose proof (slen_nonneg (title col)) as Hpos.
  split.
  - intros Hmax. rewrite Hmax.
    repeat split.
    + destruct (JS.truthyNum (minWidth col)); lia.
    + intros row Hin.
      assert (JS.slen (formatted col row) <= content).
      { apply Hrows. apply in_map_iff. now exists row. }
      destruct (JS.truthyNum (minWidth col)); lia.
    + intros lo Hlo. rewrite Hlo. simpl.
      destruct (lo =? 0) eqn:E; simpl; lia.
  - intros hi Hhi Hne. rewrite Hhi. simpl.
    replace (hi =? 0) with false by (symmetry; now apply Z.eqb_neq).
    simpl. lia.
Qed.

Lemma mapM_indexed {A B : Type} (f : nat * A -> option B)
      (P : nat -> B -> Prop) (l : list A) :
  forall k,
    (forall i a, nth_error l i = Some a ->
                 exists b, f ((k + i)%nat, a) = Some b /\ P (k + i)%nat b) ->
    exists bs, JS.mapM f (JS.indexed k l) = Some bs /\
               List.length bs = List.length l /\
               forall i b, nth_error bs i = Some b -> P (k + i)%nat b.
Proof.
  induction l as [|a l IH]; intros k H; simpl.
  - exists []. repeat split. intros i b Hb. destruct i; discriminate.
  - destruct (H 0%nat a eq_refl) as [b [Hb Pb]].
    rewrite Nat.add_0_r in Hb, Pb. rewrite Hb.
    destruct (IH (S k)) as [bs [Hbs [Hlen Hall]]].
    { intros i a' Ha'. destruct (H (S i) a' Ha') as [b' [Hb' Pb']].
      exists b'. now rewrite Nat.add_succ_r in Hb', Pb'. }
    rewrite Hbs. exists (b :: bs). repeat split.
    + simpl. now rewrite Hlen.
    + intros [|i] b' Hb'; simpl in Hb'.
      * injection Hb' as <-. now rewrite Nat.add_0_r.
      * rewrite Nat.add_succ_r. now apply Hall.
Qed.

Lemma same_lengths (l1 l2 : list string) (f : nat -> Z) :
  List.length l1 = List.length l2 ->
  (forall i b, nth_error l1 i = Some b -> JS.slen b = f i) ->
  (forall i b, nth_error l2 i = Some b -> JS.slen b = f i) ->
  map JS.slen l1 = map JS.slen l2.
Proof.
  revert l2 f. induction l1 as [|a l1 IH]; intros [|b l2] f Hlen H1 H2;
    simpl in *; try discriminate; [reflexivity|].
  f_equal.
  - rewrite (H1 0%nat a eq_refl), (H2 0%nat b eq_refl). reflexivity.
  - apply (IH l2 (fun i => f (S i))); [lia | |].
    + intros i c Hc. now apply (H1 (S i)).
    + intros i c Hc. now apply (H2 (S i)).
Qed.

(** The cells of a row render, each to its column width plus the padding
    on both sides. *)
Lemma renderCells_ok m (paddingStr : string) (cells : list string) :
  List.length (columnWidths m) = List.length (columns m) ->
  Forall (fun w => 0 <= w) (columnWidths m) ->
  List.length cells = List.length (columns m) ->
  exists strs,
    JS.mapM (renderCell m paddingStr) (JS.indexed 0 cells) = Some strs /\
    List.length strs = List.length cells /\
    forall i b, nth_error strs i = Some b ->
                JS.slen b = nth i (columnWidths m) 0 + 2 * JS.slen paddingStr.
Proof.
  intros Hws Hpos Hcells.
  destruct (mapM_indexed
              (renderCell m paddingStr)
              (fun i b => JS.slen b
                          = nth i (columnWidths m) 0 + 2 * JS.slen paddingStr)
              cells 0%nat) as [strs [H1 [H2 H3]]].
  - intros i cell Hcell. cbv beta. change (0 + i)%nat with i.
    assert (Hi : (i < List.length (columns m))%nat).
    { rewrite <- Hcells. apply nth_error_Some. congruence. }
    unfold renderCell. cbn [fst snd].
    destruct (nth_error (columns m) i) as [col|] eqn:Hcol;
      [|apply nth_error_None in Hcol; lia].
    destruct (nth_error (columnWidths m) i) as [w|] eqn:Hw;
      [|apply nth_error_None in Hw; lia].
    eexists. split; [reflexivity|].
    rewrite !slen_append, padCell_slen.
    + rewrite (nth_error_nth _ _ _ Hw). lia.
    + rewrite Forall_forall in Hpos. apply Hpos.
      now apply nth_error_In with i.
  - exists strs. repeat split; assumption.
Qed.

Lemma renderRow_total m (cells : list string) (sel : bool) :
  0 <= padding m ->
  List.length (columnWidths m) = List.length (columns m) ->
  Forall (fun w => 0 <= w) (columnWidths m) ->
  List.length cells = List.length (columns m) ->
  renderRow m cells sel <> None.
Proof.
  intros Hpad Hws Hpos Hc. unfold renderRow, JS.repeat.
  replace (padding m <? 0) with false by (symmetry; apply Z.ltb_ge; lia).
  destruct (renderCells_ok m (JS.repeatNat " " (Z.to_nat (padding m)))
                           cells Hws Hpos Hc) as [strs [E _]].
  rewrite E. discriminate.
Qed.

(** X14. In a table whose padding and column widths are not negative and
    which has one width per column, every row of as many cells as there
    are columns renders without error, and two such rows rendered with
    the same selection mark have the same length: the grid is aligned. *)
Theorem rows_render_aligned m (cells1 cells2 : list string) (sel : bool) :
  0 <= padding m ->
  List.length (columnWidths m) = List.length (columns m) ->
  Forall (fun w => 0 <= w) (columnWidths m) ->
  List.length cells1 = List.length (columns m) ->
  List.length cells2 = List.length (columns m) ->
  exists line1 line2,
    renderRow m cells1 sel = Some line1 /\
    renderRow m cells2 sel = Some line2 /\
    JS.slen line1 = JS.slen line2.
Proof.
  intros Hpad Hws Hpos H1 H2. unfold renderRow, JS.repeat.
  replace (padding m <? 0) with false by (symmetry; apply Z.ltb_ge; lia).
  set (paddingStr := JS.repeatNat " " (Z.to_nat (padding m))).
  destruct (renderCells_ok m paddingStr cells1 Hws Hpos H1)
    as [s1 [E1 [L1 P1]]].
  destruct (renderCells_ok m paddingStr cells2 Hws Hpos H2)
    as [s2 [E2 [L2 P2]]].
  rewrite E1, E2. eexists. eexists.
  split; [reflexivity|]. split; [reflexivity|].
  assert (Hj : JS.slen (JS.join (vertical (border m)) s1)
               = JS.slen (JS.join (vertical (border m)) s2)).
  { apply slen_join.
    apply (same_lengths s1 s2
             (fun i => nth i (columnWidths m) 0 + 2 * JS.slen paddingStr));
      [congruence | exact P1 | exact P2]. }
  destruct (selectable m); rewrite !slen_append, Hj; reflexivity.
Qed.

End TableRendering.

Section TableView.

Import Table.

Implicit Types (m : TableModel) (col : TableColumn) (rws : list Row).

Lemma mapM_total {A B : Type} (f : A -> option B) (l : list A) :
  (forall a, In a l -> f a <> None) ->
  exists bs, JS.mapM f l = Some bs /\ List.length bs = List.length l.
Proof.
  induction l as [|a l IH]; intros H; simpl.
  - now exists [].
  - destruct (f a) as [b|] eqn:E; [|exfalso; apply (H a); [now left | exact E]].
    destruct IH as [bs [Hbs Hlen]]; [intros a' Ha'; apply H; now right|].
    rewrite Hbs. exists (b :: bs). simpl. now rewrite Hlen.
Qed.

Lemma indexed_in {A : Type} (l : list A) :
  forall k ia, In ia (JS.indexed k l) -> In (snd ia) l.
Proof.
  induction l as [|a l IH]; intros k ia H; simpl in *; [contradiction|].
  destruct H as [<-|H]; [now left | right; now apply (IH (S k))].
Qed.

Lemma indexed_length {A : Type} (l : list A) :
  forall k, List.length (JS.indexed k l) = List.length l.
Proof. induction l as [|a l IH]; intros k; simpl; [reflexivity | now rewrite IH]. Qed.

Lemma renderBorderLine_ok m (l md r hz : string) :
  Forall (fun w => 0 <= w + padding m * 2) (columnWidths m) ->
  exists line, renderBorderLine m l md r hz = Some line /\
               (hz = "" -> line = "").
Proof.
  intros Hpos. unfold renderBorderLine.
  destruct hz as [|c hz]; simpl.
  - now exists "".
  - destruct (mapM_total
                (fun w => JS.repeat (String c hz) (w + padding m * 2))
                (columnWidths m)) as [segs [Hsegs _]].
    + intros w Hw. rewrite Forall_forall in Hpos. specialize (Hpos w Hw).
      unfold JS.repeat.
      replace (w + padding m * 2 <? 0) with false
        by (symmetry; apply Z.ltb_ge; lia).
      discriminate.
    + rewrite Hsegs. eexists. split; [reflexivity | discriminate].
Qed.

Lemma pushIf_length (line : string) : (List.length (pushIf line) <= 1)%nat.
Proof. unfold pushIf. destruct (JS.truthyStr line); simpl; lia. Qed.

(** X15. A table whose padding and column widths are not negative and
    which has one width per column always renders: [view] joins the lines
    it collected, one line for every row plus at most four more (top
    border, header, separator, bottom border); when the top, middle and
    bottom border strings are empty, as in the border [none], there is
    exactly one line per row, and one for the header if it is shown. *)
Theorem table_view_renders m :
  0 <= padding m ->
  List.length (columnWidths m) = List.length (columns m) ->
  Forall (fun w => 0 <= w) (columnWidths m) ->
  exists lines,
    viewLines m = Some lines /\
    view m = Some (JS.join JS.newline lines) /\
    (List.length (rows m) <= List.length lines
     <= List.length (rows m) + 4)%nat /\
    (top (border m) = "" -> mid (border m) = "" -> bottom (border m) = "" ->
     List.length lines
     = (List.length (rows m) + if showHeader m then 1 else 0)%nat).
Proof.
  intros Hpad Hws Hpos.
  assert (Hpos2 : Forall (fun w => 0 <= w + padding m * 2) (columnWidths m)).
  { rewrite Forall_forall in *. intros w Hw. specialize (Hpos w Hw). lia. }
  set (bd := border m).
  destruct (renderBorderLine_ok m (topLeft bd) (topMid bd) (topRight bd)
                                (top bd) Hpos2) as [topLine [Htop Htop0]].
  destruct (renderBorderLine_ok m (midLeft bd) (midMid bd) (midRight bd)
                                (mid bd) Hpos2) as [sepLine [Hsep Hsep0]].
  destruct (renderBorderLine_ok m (bottomLeft bd) (bottomMid bd)
                                (bottomRight bd) (bottom bd) Hpos2)
    as [bottomLine [Hbot Hbot0]].
  assert (Hrow : forall cells sel,
             List.length cells = List.length (columns m) ->
             renderRow m cells sel <> None).
  { intros cells sel Hc. now apply renderRow_total. }
  assert (Hhd : exists hd,
             headerLines m = Some hd /\
             (List.length hd <= 2)%nat /\
             (mid bd = "" ->
              List.length hd = if showHeader m then 1%nat else 0%nat)).
  { unfold headerLines. destruct (showHeader m).
    - destruct (renderRow m (map title (columns m)) false) as [h|] eqn:E;
        [|exfalso; apply (Hrow _ _ (length_map _ _) E)].
      destruct (showHeaderSeparator m).
      + fold bd. rewrite Hsep. eexists. split; [reflexivity|].
        pose proof (pushIf_length sepLine). simpl. split; [lia|].
        intros H0. now rewrite (Hsep0 H0).
      + eexists. split; [reflexivity|]. simpl. split; [lia | reflexivity].
    - exists []. simpl. repeat split; lia. }
  destruct Hhd as [hd [Hhd [Hhd2 Hhd0]]].
  destruct (mapM_total (rowLine m) (JS.indexed 0 (rows m)))
    as [body [Hbody Hblen]].
  { intros ir _. unfold rowLine. apply Hrow. apply length_map. }
  rewrite indexed_length in Hblen.
  exists (pushIf topLine ++ hd ++ body ++ pushIf bottomLine)%list.
  assert (Hv : viewLines m
               = Some (pushIf topLine ++ hd ++ body ++ pushIf bottomLine)%list).
  { unfold viewLines. fold bd. now rewrite Htop, Hhd, Hbody, Hbot. }
  split; [exact Hv|]. split; [unfold view; now rewrite Hv|].
  rewrite !length_app, Hblen.
  pose proof (pushIf_length topLine). pose proof (pushIf_length bottomLine).
  split; [lia|].
  intros T0 M0 B0. rewrite (Htop0 T0), (Hbot0 B0), (Hhd0 M0). simpl. lia.
Qed.

End TableView.

Section TableWidths.

Import Table.

Lemma computeWidth_nonneg (rws : list Row) (col : TableColumn) :
  (forall w, width col = Some w \/ maxWidth col = Some w -> 0 <= w) ->
  0 <= computeWidth rws col.
Proof.
  intros H. unfold computeWidth. rewrite fold_widths.
  destruct (fold_max_ge (map (fun row => JS.slen (formatted col row)) rws)
                        (JS.slen (title col))) as [Ht _].
  pose proof (slen_nonneg (title col)).
  destruct (width col) as [fw|] eqn:Ew; simpl.
  - destruct (fw =? 0) eqn:E0; simpl.
    + destruct (JS.truthyNum (minWidth col));
        destruct (maxWidth col) as [hi|] eqn:Eh; simpl;
        try destruct (hi =? 0) eqn:E1; simpl; try lia;
        assert (0 <= hi) by (apply (H hi); now right); lia.
    + apply (H fw). now left.
  - destruct (JS.truthyNum (minWidth col));
      destruct (maxWidth col) as [hi|] eqn:Eh; simpl;
      try destruct (hi =? 0) eqn:E1; simpl; try lia;
      assert (0 <= hi) by (apply (H hi); now right); lia.
Qed.

(** X16. [createTable] and [setRows] compute one width per column, and no
    width computed by either is negative as long as no column carries a
    negative fixed width or a negative maximum width. *)
Theorem widths_are_sizes :
  (forall options,
      List.length (columnWidths (createTable options))
      = List.length (columns (createTable options))) /\
  (forall m rws,
      List.length (columnWidths (setRows m rws))
      = List.length (columns (setRows m rws))) /\
  (forall options,
      (forall col w, In col (o_columns options) ->
                     width col = Some w \/ maxWidth col = Some w -> 0 <= w) ->
      Forall (fun w => 0 <= w) (columnWidths (createTable options))) /\
  (forall m rws,
      (forall col w, In col (columns m) ->
                     width col = Some w \/ maxWidth col = Some w -> 0 <= w) ->
      Forall (fun w => 0 <= w) (columnWidths (setRows m rws))).
Proof.
  split; [|split; [|split]].
  - intros options. simpl. apply length_map.
  - intros m rws. simpl. apply length_map.
  - intros options H. simpl. apply Forall_forall. intros w Hw.
    apply in_map_iff in Hw. destruct Hw as [col [<- Hcol]].
    apply computeWidth_nonneg. intros w. now apply H.
  - intros m rws H. simpl. apply Forall_forall. intros w Hw.
    apply in_map_iff in Hw. destruct Hw as [col [<- Hcol]].
    apply computeWidth_nonneg. intros w. now apply H.
Qed.

End TableWidths.

(* ================================================================= *)
(** * Further properties of the timer *)

Section TimerClock.

Import Timer.

(** X17. [pause] freezes the clock: whenever it is read afterwards, the
    elapsed time of the paused timer is what the running timer showed at
    the moment of the pause. *)
Theorem pause_freezes_elapsed (m : TimerModel) (now later : Z) :
  state m = running ->
  state (pause now m) = paused /\
  getElapsed later (pause now m) = getElapsed now m.
Proof.
  intros H. unfold pause, getElapsed, sinceStart. rewrite H. simpl.
  split; [reflexivity|].
  destruct (JS.truthyNum (startTime m)); lia.
Qed.

(** X18. A timer counts only while it runs: started at [t0], paused at
    [t1] and resumed at [t2], at [t3] it shows the time it had before
    plus [t1 - t0] plus [t3 - t2] (for start stamps that are not 0); a
    running timer reset at [t0] shows [t3 - t0]. *)
Theorem elapsed_counts_running_time (m : TimerModel) (t0 t1 t2 t3 : Z) :
  t0 <> 0 -> t2 <> 0 ->
  (state m = idle ->
   getElapsed t3 (resume t2 (pause t1 (start t0 m)))
   = elapsed m + (t1 - t0) + (t3 - t2)) /\
  (state m = running -> getElapsed t3 (reset t0 m) = t3 - t0).
Proof.
  intros H0 H2.
  apply Z.eqb_neq in H0. apply Z.eqb_neq in H2.
  split; intros Hs.
  - unfold start. rewrite Hs. simpl.
    unfold pause, sinceStart. simpl. rewrite H0. simpl.
    unfold resume. simpl. unfold getElapsed. simpl. rewrite H2. simpl. lia.
  - unfold reset, getElapsed. rewrite Hs. simpl. rewrite H0. simpl. lia.
Qed.

(** X19. On a running countdown [tick] finishes the timer exactly when no
    time remains; a finished countdown then has no time remaining at any
    later moment. A stopwatch is never changed by [tick]. *)
Theorem tick_finishes_when_no_time_remains (m : TimerModel) (now : Z) :
  (state m = running -> mode m = countdown ->
   (state (tick now m) = finished <-> getRemaining now m = 0) /\
   (state (tick now m) = finished ->
    forall later, getRemaining later (tick now m) = 0)) /\
  (mode m = stopwatch -> tick now m = m).
Proof.
  split.
  - intros Hs Hm.
    assert (He : getElapsed now m = elapsed m + sinceStart now m).
    { unfold getElapsed, sinceStart. rewrite Hs. simpl.
      destruct (JS.truthyNum (startTime m)); lia. }
    unfold getRemaining at 1. rewrite Hm, He. simpl.
    unfold tick. rewrite Hs, Hm. simpl.
    destruct (elapsed m + sinceStart now m >=? duration m) eqn:E; simpl.
    + split; [split; [lia | reflexivity]|].
      intros _ later. unfold getRemaining, getElapsed. simpl. lia.
    + rewrite Hs. split; [split; [discriminate | lia] | discriminate].
  - intros Hm. unfold tick. rewrite Hm. simpl.
    now destruct (negb (isState (state m) running)).
Qed.

(** X20. Only [tick] finishes a timer: [start], [pause], [resume],
    [toggle], [stop] and [reset] never turn a timer that is not finished
    into a finished one. A finished timer is left as it is by [pause] and
    [resume], and [stop] and [reset] bring it back to idle with no
    elapsed time. *)
Theorem only_tick_finishes (m : TimerModel) (now : Z) :
  (state m <> finished ->
   state (start now m) <> finished /\ state (pause now m) <> finished /\
   state (resume now m) <> finished /\ state (toggle now m) <> finished /\
   state (stop m) <> finished /\ state (reset now m) <> finished) /\
  (state m = finished ->
   pause now m = m /\ resume now m = m /\
   state (stop m) = idle /\ elapsed (stop m) = 0 /\
   state (reset now m) = idle /\ elapsed (reset now m) = 0).
Proof.
  split; intros H.
  - unfold toggle, start, pause, resume, stop, reset.
    destruct (state m) eqn:E; simpl; rewrite ?E;
      repeat split; try discriminate; try assumption.
  - unfold pause, resume, stop, reset. rewrite H. simpl.
    now repeat split.
Qed.

Lemma pad2_two_digits (n : Z) :
  0 <= n < 100 -> String.length (pad2 n) = 2%nat.
Proof.
  intros H.
  assert (Hall : forallb (fun k => Nat.eqb (String.length (pad2 (Z.of_nat k))) 2)
                         (seq 0 100) = true) by (vm_compute; reflexivity).
  rewrite forallb_forall in Hall.
  specialize (Hall (Z.to_nat n)).
  rewrite Z2Nat.id in Hall by lia.
  apply Nat.eqb_eq, Hall, in_seq. lia.
Qed.

(** X21. [formatTime] has a fixed shape: for a time from 0 up to an hour
    it is 5 characters long ([MM:SS]), from one hour up to a hundred
    hours 8 characters ([HH:MM:SS]), and 3 characters longer when
    hundredths are shown. *)
Theorem formatTime_length (ms : Z) (showMs : bool) :
  0 <= ms < 360000000 ->
  String.length (formatTime ms showMs)
  = Nat.add (if ms <? 3600000 then 5%nat else 8%nat)
            (if showMs then 3%nat else 0%nat).
Proof.
  intros H. unfold formatTime.
  assert (Hts : 0 <= ms / 1000 < 360000).
  { split; [apply Z.div_pos; lia | apply Z.div_lt_upper_bound; lia]. }
  assert (Hh : 0 <= ms / 1000 / 3600 < 100).
  { split; [apply Z.div_pos; lia | apply Z.div_lt_upper_bound; lia]. }
  assert (Hm : 0 <= Z.rem (ms / 1000) 3600 / 60 < 60).
  { pose proof (Z.rem_bound_pos (ms / 1000) 3600 ltac:(lia) ltac:(lia)).
    split; [apply Z.div_pos; lia | apply Z.div_lt_upper_bound; lia]. }
  assert (Hs : 0 <= Z.rem (ms / 1000) 60 < 60)
    by (apply Z.rem_bound_pos; lia).
  assert (Hc : 0 <= Z.rem ms 1000 / 10 < 100).
  { pose proof (Z.rem_bound_pos ms 1000 ltac:(lia) ltac:(lia)).
    split; [apply Z.div_pos; lia | apply Z.div_lt_upper_bound; lia]. }
  assert (Hlt : (ms <? 3600000) = negb (ms / 1000 / 3600 >? 0)).
  { destruct (ms <? 3600000) eqn:E.
    - apply Z.ltb_lt in E.
      assert (ms / 1000 / 3600 = 0).
      { apply Z.div_small. split; [lia|].
        apply Z.div_lt_upper_bound; lia. }
      rewrite H0. reflexivity.
    - apply Z.ltb_ge in E.
      assert (1 <= ms / 1000 / 3600).
      { apply Z.div_le_lower_bound; [lia|].
        apply Z.div_le_lower_bound; lia. }
      destruct (ms / 1000 / 3600 >? 0) eqn:G; [reflexivity | lia]. }
  rewrite Hlt.
  destruct (ms / 1000 / 3600 >? 0); destruct showMs; cbn [negb];
    rewrite ?length_append, ?pad2_two_digits by lia; reflexivity.
Qed.

End TimerClock.

(* ================================================================= *)
(** * Further properties of the text input *)

Section TextInputEditing.

Import TextInput.

Implicit Types (m : TextInputModel).

Lemma slen_slice (s : string) (a b : Z) :
  0 <= a <= b -> b <= JS.slen s -> JS.slen (JS.slice s a b) = b - a.
Proof.
  intros Ha Hb. unfold JS.slice, JS.slicePos.
  replace (a <? 0) with false by (symmetry; apply Z.ltb_ge; lia).
  replace (b <? 0) with false by (symmetry; apply Z.ltb_ge; lia).
  replace (Z.min a (JS.slen s)) with a by lia.
  replace (Z.min b (JS.slen s)) with b by lia.
  unfold JS.slen in *. rewrite length_substring. lia.
Qed.

(** X22. The editing operations keep the cursor inside the value:
    [setCursor] (and with it [cursorLeft], [cursorRight], [cursorStart],
    [cursorEnd]) always puts it there without touching the value, and
    [setValue], [backspace], [deleteChar], [deleteToEnd], [deleteToStart],
    [clear] and an [insert] that fits the maximum length preserve it. *)
Theorem editing_keeps_cursor_inside m :
  (forall p, cursorOk (setCursor m p) /\ value (setCursor m p) = value m) /\
  (cursorOk m ->
   (forall v, cursorOk (setValue m v)) /\
   cursorOk (backspace m) /\ cursorOk (deleteChar m) /\
   cursorOk (deleteToEnd m) /\ cursorOk (deleteToStart m) /\
   cursorOk (clear m) /\
   (forall char,
       maxLength m <= 0 \/ JS.slen (value m) + JS.slen char <= maxLength m ->
       cursorOk (insert m char))).
Proof.
  pose proof (slen_nonneg (value m)) as Hlen.
  unfold cursorOk. split.
  - intros p. simpl. split; [lia | reflexivity].
  - intros Hc. repeat split.
    + unfold setValue. simpl.
      match goal with |- context [Z.min _ (JS.slen ?x)] =>
        pose proof (slen_nonneg x) end. lia.
    + unfold setValue. simpl. lia.
    + unfold backspace. destruct (cursor m =? 0) eqn:E; simpl; lia.
    + unfold backspace. destruct (cursor m =? 0) eqn:E; simpl; [lia|].
      apply Z.eqb_neq in E.
      rewrite slen_append, slen_slice, slen_sliceFrom by lia. lia.
    + unfold deleteChar.
      destruct (cursor m =? JS.slen (value m)) eqn:E; simpl; lia.
    + unfold deleteChar.
      destruct (cursor m =? JS.slen (value m)) eqn:E; simpl; [lia|].
      apply Z.eqb_neq in E.
      rewrite slen_append, slen_slice, slen_sliceFrom by lia. lia.
    + simpl. lia.
    + simpl. rewrite slen_slice by lia. lia.
    + simpl. lia.
    + simpl. apply slen_nonneg.
    + simpl. lia.
    + simpl. reflexivity.
    + unfold insert.
      destruct ((maxLength m >? 0) && (JS.slen (value m) >=? maxLength m));
        simpl; [lia|].
      pose proof (slen_nonneg char). lia.
    + unfold insert. pose proof (slen_nonneg char) as Hch.
      destruct ((maxLength m >? 0) && (JS.slen (value m) >=? maxLength m))
        eqn:E; simpl; [lia|].
      set (newValue := JS.slice (value m) 0 (cursor m) ++ char
                       ++ JS.sliceFrom (value m) (cursor m)).
      assert (Hnv : JS.slen newValue = JS.slen (value m) + JS.slen char).
      { unfold newValue.
        rewrite !slen_append, slen_slice, slen_sliceFrom by lia. lia. }
      replace ((maxLength m >? 0) && (JS.slen newValue >? maxLength m))
        with false; [lia|].
      symmetry. apply andb_false_iff. destruct H as [H|H]; [left | right]; lia.
Qed.


Lemma withValue_same m : withValue m (value m) (cursor m) = m.
Proof. now destruct m. Qed.

(** X24. [backspace] undoes the [insert] of one character: when the
    cursor is inside the value and the character fits the maximum length,
    inserting it and pressing backspace gives the model back. *)
Theorem backspace_undoes_insert m (char : string) :
  cursorOk m -> JS.slen char = 1 ->
  maxLength m <= 0 \/ JS.slen (value m) < maxLength m ->
  backspace (insert m char) = m.
Proof.
  intros Hc Hch Hfit. unfold cursorOk in Hc.
  unfold insert.
  replace ((maxLength m >? 0) && (JS.slen (value m) >=? maxLength m))
    with false
    by (symmetry; apply andb_false_iff; destruct Hfit; [left | right]; lia).
  set (before := JS.slice (value m) 0 (cursor m)).
  set (after := JS.sliceFrom (value m) (cursor m)).
  assert (Hb : JS.slen before = cursor m)
    by (unfold before; rewrite slen_slice; lia).
  assert (Ha : JS.slen after = JS.slen (value m) - cursor m)
    by (unfold after; rewrite slen_sliceFrom; lia).
  assert (Hnv : JS.slen (before ++ char ++ after) = JS.slen (value m) + 1)
    by (rewrite !slen_append; lia).
  replace ((maxLength m >? 0)
           && (JS.slen (before ++ char ++ after) >? maxLength m))
    with false
    by (symmetry; apply andb_false_iff; destruct Hfit; [left | right]; lia).
  unfold backspace. simpl. rewrite Hch.
  replace (cursor m + 1 =? 0) with false by (symmetry; apply Z.eqb_neq; lia).
  replace (cursor m + 1 - 1) with (cursor m) by lia.
  assert (E1 : JS.slice (before ++ char ++ after) 0 (cursor m) = before).
  { rewrite slice_prefix by lia.
    replace (Z.to_nat (cursor m)) with (String.length before)
      by (unfold JS.slen in Hb; lia).
    apply substring_append_left. }
  assert (E2 : JS.sliceFrom (before ++ char ++ after) (cursor m + 1) = after).
  { rewrite sliceFrom_suffix by lia.
    assert (Hass : before ++ char ++ after = (before ++ char) ++ after).
    { clear. induction before as [|c b IH]; simpl; [reflexivity|].
      now rewrite IH. }
    rewrite Hass.
    assert (Hbc : Z.to_nat (cursor m + 1) = String.length (before ++ char)).
    { rewrite length_append. unfold JS.slen in Hb, Hch. lia. }
    rewrite Hbc, substring_append_right.
    replace (String.length ((before ++ char) ++ after)
             - String.length (before ++ char))%nat
      with (String.length after) by (rewrite (length_append (before ++ char)); lia).
    apply substring_all. }
  unfold withValue. simpl. rewrite E1, E2.
  unfold before, after. rewrite slice_split by lia.
  now destruct m.
Qed.

(** X25. The maximum length is respected: [setValue] always returns a
    value within it, and [insert] never grows a value beyond it, wherever
    the cursor is. *)
Theorem maxLength_is_respected m :
  (forall v, lengthOk (setValue m v)) /\
  (lengthOk m -> forall char, lengthOk (insert m char)).
Proof.
  unfold lengthOk. split.
  - intros v Hmax. unfold setValue in *. simpl in *.
    replace (maxLength m >? 0) with true by lia. simpl.
    destruct (JS.slen v >? maxLength m) eqn:E.
    + rewrite slen_slice_prefix by lia. lia.
    + lia.
  - intros Hok char.
    assert (Hm : maxLength (insert m char) = maxLength m).
    { unfold insert.
      now destruct ((maxLength m >? 0) && (JS.slen (value m) >=? maxLength m)). }
    rewrite Hm. intros Hmax. specialize (Hok Hmax).
    unfold insert.
    destruct ((maxLength m >? 0) && (JS.slen (value m) >=? maxLength m));
      [exact Hok|]. simpl.
    replace (maxLength m >? 0) with true by lia. simpl.
    match goal with |- context [JS.slen ?nv >? maxLength m] =>
      destruct (JS.slen nv >? maxLength m) eqn:E end.
    + rewrite slen_slice_prefix by lia. lia.
    + lia.
Qed.

(** X26. [deleteToEnd] and [deleteToStart] split the value at the cursor:
    what the first keeps followed by what the second keeps is the value. *)
Theorem deleteToEnd_deleteToStart_split m :
  cursorOk m ->
  value (deleteToEnd m) ++ value (deleteToStart m) = value m /\
  JS.slen (value (deleteToEnd m)) = cursor m /\
  cursor (deleteToStart m) = 0.
Proof.
  intros Hc. unfold cursorOk in Hc. simpl.
  split; [now apply slice_split|]. split; [|reflexivity].
  rewrite slen_slice; lia.
Qed.

End TextInputEditing.

Section TextInputView.

Import TextInput.

Implicit Types (m : TextInputModel).

Lemma slen_repeatNat (k : string) (n : nat) :
  JS.slen (JS.repeatNat k n) = Z.of_nat n * JS.slen k.
Proof. unfold JS.slen. rewrite length_repeatNat. lia. Qed.

(** What [view] cuts or pads to the width has exactly that length. *)
Lemma window_width (dv : string) (c w : Z) :
  0 < w -> 0 <= c -> c + 1 <= JS.slen dv ->
  JS.slen (if JS.slen dv >? w
           then if c + 1 >? w
                then JS.slice dv (c + 1 - w) (c + 1 - w + w)
                else JS.slice dv 0 w
           else JS.padEnd dv w) = w.
Proof.
  intros Hw Hc Hdv.
  destruct (JS.slen dv >? w) eqn:E.
  - destruct (c + 1 >? w) eqn:E1; rewrite slen_slice; lia.
  - unfold JS.padEnd. rewrite slen_append, slen_spaces. lia.
Qed.

(** X27. A focused input with a positive width, a cursor character, no
    empty mask, no count suffix and the cursor inside the value renders
    without error, and the rendered text is as long as the prompt plus
    [width] characters. *)
Theorem focused_view_fills_width m :
  focused m = true -> cursorOk m -> 0 < width m ->
  cursorChar m <> "" -> mask m <> Some "" -> showCharCount m = false ->
  exists text, view m = Some text /\
               JS.slen text = JS.slen (prompt m) + width m.
Proof.
  intros Hf Hc Hw Hcc Hmask Hcount. unfold cursorOk in Hc.
  assert (Hcc1 : 1 <= JS.slen (cursorChar m)).
  { destruct (cursorChar m); [contradiction | unfold JS.slen; simpl; lia]. }
  pose proof (slen_nonneg (value m)) as Hv.
  unfold view, maskTruthy, maskText. rewrite Hf, Hcount. simpl.
  replace (width m >? 0) with true by lia.
  destruct (mask m) as [k|].
  - assert (Hk : 1 <= JS.slen k).
    { destruct k; [contradiction | unfold JS.slen; simpl; lia]. }
    assert (Ht : JS.truthyStr k = true).
    { unfold JS.truthyStr. destruct k; [contradiction | reflexivity]. }
    simpl. rewrite Ht. unfold JS.repeat.
    replace (JS.slen (value m) <? 0) with false by lia.
    replace (cursor m <? 0) with false by lia.
    replace (JS.slen (value m) - cursor m <? 0) with false by lia.
    rewrite ?andb_false_r.
    eexists. split; [reflexivity|].
    rewrite slen_append, window_width; try lia.
    rewrite !slen_append, !slen_repeatNat. nia.
  - simpl. rewrite ?andb_false_r.
    eexists. split; [reflexivity|].
    rewrite slen_append, window_width; try lia.
    rewrite !slen_append, slen_slice, slen_sliceFrom by lia. lia.
Qed.

End TextInputView.

Section TextInputWords.

Import TextInput.

Variable isSpace : ascii -> bool.

Implicit Types (m : TextInputModel).

(** A loop that steps forward while a condition holds that implies
    [i < bound]. *)
Lemma forward_loop (cond : Z -> bool) (bound : Z) :
  (forall i, cond i = true -> i < bound) ->
  forall fuel i,
    let r := JS.whileF cond Z.succ fuel i in
    i <= r /\ (i <= bound -> r <= bound) /\
    ((0 < fuel)%nat -> cond i = true -> i + 1 <= r) /\
    (bound <= i + Z.of_nat fuel -> cond r = false).
Proof.
  intros Hg. induction fuel as [|fuel IH]; intros i; simpl.
  - repeat split; try lia.
    intros H. destruct (cond i) eqn:E; [apply Hg in E; lia | reflexivity].
  - destruct (cond i) eqn:E.
    + destruct (IH (Z.succ i)) as [H1 [H2 [H3 H4]]].
      pose proof (Hg i E) as Hlt.
      repeat split; try lia. intros H. apply H4. lia.
    + repeat split; try lia; try discriminate. intros _. exact E.
Qed.

(** A loop that steps backward while a condition holds that implies
    [bound <= i]. *)
Lemma backward_loop (cond : Z -> bool) (bound : Z) :
  (forall i, cond i = true -> bound <= i) ->
  forall fuel i,
    let r := JS.whileF cond Z.pred fuel i in
    r <= i /\ (bound - 1 <= i -> bound - 1 <= r) /\
    ((0 < fuel)%nat -> cond i = true -> r <= i - 1) /\
    (i - Z.of_nat fuel < bound -> cond r = false).
Proof.
  intros Hg. induction fuel as [|fuel IH]; intros i; simpl.
  - repeat split; try lia.
    intros H. destruct (cond i) eqn:E; [apply Hg in E; lia | reflexivity].
  - destruct (cond i) eqn:E.
    + destruct (IH (Z.pred i)) as [H1 [H2 [H3 H4]]].
      pose proof (Hg i E) as Hlt.
      repeat split; try lia. intros H. apply H4. lia.
    + repeat split; try lia; try discriminate. intros _. exact E.
Qed.

(** X28. [wordRight] and [wordLeft] keep the value and always make
    progress: from a cursor inside the value and not at its end,
    [wordRight] moves the cursor strictly right, to the end of the value
    or onto a character that is not white space; from a cursor not at the
    start, [wordLeft] moves it strictly left, to the start or to just
    after a white-space character. *)
Theorem word_moves_make_progress m :
  cursorOk m ->
  (cursor m <> JS.slen (value m) ->
   let m' := wordRight isSpace m in
   value m' = value m /\
   cursor m < cursor m' <= JS.slen (value m) /\
   (cursor m' = JS.slen (value m) \/
    spaceAt isSpace (value m) (cursor m') = false)) /\
  (cursor m <> 0 ->
   let m' := wordLeft isSpace m in
   value m' = value m /\
   0 <= cursor m' < cursor m /\
   (cursor m' = 0 \/ spaceAt isSpace (value m) (cursor m' - 1) = true)).
Proof.
  intros Hc. unfold cursorOk in Hc. split.
  - intros Hne. cbv zeta. unfold wordRight.
    replace (cursor m =? JS.slen (value m)) with false
      by (symmetry; now apply Z.eqb_neq).
    set (len := JS.slen (value m)).
    set (fuel := Z.to_nat (len - cursor m)).
    set (c1 := fun i => (i <? len) && negb (spaceAt isSpace (value m) i)).
    set (c2 := fun i => (i <? len) && spaceAt isSpace (value m) i).
    assert (G1 : forall i, c1 i = true -> i < len)
      by (intros i H; apply andb_true_iff in H; lia).
    assert (G2 : forall i, c2 i = true -> i < len)
      by (intros i H; apply andb_true_iff in H; lia).
    destruct (forward_loop c1 len G1 fuel (cursor m)) as [A1 [A2 [A3 A4]]].
    set (i1 := JS.whileF c1 Z.succ fuel (cursor m)) in *.
    destruct (forward_loop c2 len G2 fuel i1) as [B1 [B2 [B3 B4]]].
    set (i2 := JS.whileF c2 Z.succ fuel i1) in *.
    assert (Hfuel : (0 < fuel)%nat) by (unfold fuel, len in *; lia).
    assert (Hprog : cursor m + 1 <= i2).
    { destruct (spaceAt isSpace (value m) (cursor m)) eqn:Es.
      - assert (E1 : c1 (cursor m) = false)
          by (unfold c1; rewrite Es; apply andb_false_r).
        assert (Hi1 : i1 = cursor m).
        { unfold i1. destruct fuel; simpl; [reflexivity | now rewrite E1]. }
        assert (E2 : c2 i1 = true).
        { rewrite Hi1. unfold c2. rewrite Es.
          apply andb_true_iff. split; [lia | reflexivity]. }
        specialize (B3 Hfuel E2). lia.
      - assert (E1 : c1 (cursor m) = true).
        { unfold c1. rewrite Es. apply andb_true_iff. split; [lia | reflexivity]. }
        specialize (A3 Hfuel E1). lia. }
    assert (Hi2 : i2 <= len) by (apply B2, A2; lia).
    assert (Hexit : c2 i2 = false) by (apply B4; unfold fuel; lia).
    unfold setCursor. simpl. fold len.
    replace (Z.max 0 (Z.min i2 len)) with i2 by lia.
    repeat split; try lia.
    unfold c2 in Hexit. apply andb_false_iff in Hexit.
    destruct Hexit as [H|H]; [left; lia | right; exact H].
  - intros Hne. cbv zeta. unfold wordLeft.
    replace (cursor m =? 0) with false by (symmetry; now apply Z.eqb_neq).
    set (fuel := Z.to_nat (cursor m)).
    set (c1 := fun i => (i >? 0) && spaceAt isSpace (value m) i).
    set (c2 := fun i => (i >? 0) && negb (spaceAt isSpace (value m) (i - 1))).
    assert (G1 : forall i, c1 i = true -> 1 <= i)
      by (intros i H; apply andb_true_iff in H; lia).
    assert (G2 : forall i, c2 i = true -> 1 <= i)
      by (intros i H; apply andb_true_iff in H; lia).
    destruct (backward_loop c1 1 G1 fuel (cursor m - 1)) as [A1 [A2 [A3 A4]]].
    set (i1 := JS.whileF c1 Z.pred fuel (cursor m - 1)) in *.
    destruct (backward_loop c2 1 G2 fuel i1) as [B1 [B2 [B3 B4]]].
    set (i2 := JS.whileF c2 Z.pred fuel i1) in *.
    assert (Hexit : c2 i2 = false) by (apply B4; unfold fuel; lia).
    unfold setCursor. simpl.
    replace (Z.max 0 (Z.min i2 (JS.slen (value m)))) with i2 by lia.
    repeat split; try lia.
    unfold c2 in Hexit. apply andb_false_iff in Hexit.
    destruct Hexit as [H|H]; [left; lia | right].
    now apply negb_false_iff in H.
Qed.

Lemma substring_substring (s : string) :
  forall n k, (n <= k)%nat -> substring 0 n (substring 0 k s) = substring 0 n s.
Proof.
  induction s as [|c s IH]; intros n k H.
  - destruct n, k; reflexivity.
  - destruct n as [|n]; destruct k as [|k]; simpl; try reflexivity; [lia|].
    f_equal. apply IH. lia.
Qed.

Lemma charAt_prefix (s : string) (c i : Z) :
  0 <= i < c -> c <= JS.slen s ->
  JS.charAt (JS.slice s 0 c) i = JS.charAt s i.
Proof.
  intros Hi Hc. unfold JS.charAt.
  replace (i <? 0) with false by lia.
  rewrite slice_prefix by lia.
  rewrite substring_correct1 by lia.
  now rewrite Nat.add_0_r.
Qed.

(** X29. [deleteWordBackward] with the cursor inside the value and not at
    its start removes at least one character before the cursor and
    nothing else: the new value is the old one up to the new cursor
    followed by the old text after the old cursor, and the new cursor is
    at the start or just after a white-space character. *)
Theorem deleteWordBackward_removes_word m :
  cursorOk m -> cursor m <> 0 ->
  let m' := deleteWordBackward isSpace m in
  0 <= cursor m' < cursor m /\
  value m' = JS.slice (value m) 0 (cursor m')
             ++ JS.sliceFrom (value m) (cursor m) /\
  JS.slen (value m') = JS.slen (value m) - (cursor m - cursor m') /\
  (cursor m' = 0 \/ spaceAt isSpace (value m) (cursor m' - 1) = true).
Proof.
  intros Hc Hne. unfold cursorOk in Hc. cbv zeta.
  unfold deleteWordBackward.
  replace (cursor m =? 0) with false by (symmetry; now apply Z.eqb_neq).
  set (before := JS.slice (value m) 0 (cursor m)).
  assert (Hb : JS.slen before = cursor m)
    by (unfold before; rewrite slen_slice; lia).
  set (fuel := S (String.length before)).
  set (c1 := fun i => (i >=? 0) && spaceAt isSpace before i).
  set (c2 := fun i => (i >=? 0) && negb (spaceAt isSpace before i)).
  assert (G1 : forall i, c1 i = true -> 0 <= i)
    by (intros i H; apply andb_true_iff in H; lia).
  assert (G2 : forall i, c2 i = true -> 0 <= i)
    by (intros i H; apply andb_true_iff in H; lia).
  destruct (backward_loop c1 0 G1 fuel (JS.slen before - 1))
    as [A1 [A2 [A3 A4]]].
  set (i1 := JS.whileF c1 Z.pred fuel (JS.slen before - 1)) in *.
  destruct (backward_loop c2 0 G2 fuel i1) as [B1 [B2 [B3 B4]]].
  set (i2 := JS.whileF c2 Z.pred fuel i1) in *.
  assert (Hfuel : (0 < fuel)%nat) by (unfold fuel; lia).
  assert (Hprog : i2 <= cursor m - 2).
  { destruct (spaceAt isSpace before (JS.slen before - 1)) eqn:Es.
    - assert (E1 : c1 (JS.slen before - 1) = true).
      { unfold c1. rewrite Es. apply andb_true_iff. split; [lia | reflexivity]. }
      specialize (A3 Hfuel E1). lia.
    - assert (E1 : c1 (JS.slen before - 1) = false)
        by (unfold c1; rewrite Es; apply andb_false_r).
      assert (Hi1 : i1 = JS.slen before - 1).
      { unfold i1, fuel. simpl. now rewrite E1. }
      assert (E2 : c2 i1 = true).
      { rewrite Hi1. unfold c2. rewrite Es.
        apply andb_true_iff. split; [lia | reflexivity]. }
      specialize (B3 Hfuel E2). lia. }
  assert (Hlow : -1 <= i2) by (apply B2, A2; lia).
  assert (Hexit : c2 i2 = false).
  { apply B4. unfold fuel. unfold JS.slen in *. lia. }
  simpl.
  assert (Hpre : JS.slice before 0 (i2 + 1) = JS.slice (value m) 0 (i2 + 1)).
  { unfold before. rewrite !slice_prefix by (rewrite ?slen_slice; lia).
    apply substring_substring. lia. }
  rewrite Hpre.
  repeat split; try lia.
  - rewrite slen_append, slen_slice, slen_sliceFrom by lia. lia.
  - unfold c2 in Hexit. apply andb_false_iff in Hexit.
    destruct Hexit as [H|H]; [left; lia | right].
    apply negb_false_iff in H.
    replace (i2 + 1 - 1) with i2 by lia.
    destruct (Z_lt_dec i2 0) as [Hneg|Hpos].
    + unfold spaceAt, JS.charAt in H.
      replace (i2 <? 0) with true in H by lia. discriminate.
    + unfold spaceAt in *. unfold before in H.
      rewrite charAt_prefix in H by lia. exact H.
Qed.

End TextInputWords.

Section WordLoops.

Import TextInput.

Variable isSpace : ascii -> bool.

(** The two loops of [wordRight], of [wordLeft] and of
    [deleteWordBackward] exit within their bounds, from any start the
    functions give them. *)
Lemma word_loops_exit (s : string) (c : Z) :
  (forall i, c <= i ->
     let cond1 := fun i => (i <? JS.slen s) && negb (spaceAt isSpace s i) in
     let cond2 := fun i => (i <? JS.slen s) && spaceAt isSpace s i in
     let fuel := Z.to_nat (JS.slen s - c) in
     JS.while_exits cond1 Z.succ i (JS.whileF cond1 Z.succ fuel i) /\
     JS.while_exits cond2 Z.succ i (JS.whileF cond2 Z.succ fuel i)) /\
  (forall i, i <= c - 1 ->
     let cond1 := fun i => (i >? 0) && spaceAt isSpace s i in
     let cond2 := fun i => (i >? 0) && negb (spaceAt isSpace s (i - 1)) in
     let fuel := Z.to_nat c in
     JS.while_exits cond1 Z.pred i (JS.whileF cond1 Z.pred fuel i) /\
     JS.while_exits cond2 Z.pred i (JS.whileF cond2 Z.pred fuel i)) /\
  (forall i, i <= JS.slen s - 1 ->
     let cond1 := fun i => (i >=? 0) && spaceAt isSpace s i in
     let cond2 := fun i => (i >=? 0) && negb (spaceAt isSpace s i) in
     let fuel := S (String.length s) in
     JS.while_exits cond1 Z.pred i (JS.whileF cond1 Z.pred fuel i) /\
     JS.while_exits cond2 Z.pred i (JS.whileF cond2 Z.pred fuel i)).
Proof.
  split; [|split]; intros i Hi cond1 cond2 fuel; split; apply whileF_exits.
  - apply (forward_loop cond1 (JS.slen s)); [|unfold fuel; lia].
    intros j H; apply andb_true_iff in H; lia.
  - apply (forward_loop cond2 (JS.slen s)); [|unfold fuel; lia].
    intros j H; apply andb_true_iff in H; lia.
  - apply (backward_loop cond1 1); [|unfold fuel; lia].
    intros j H; apply andb_true_iff in H; lia.
  - apply (backward_loop cond2 1); [|unfold fuel; lia].
    intros j H; apply andb_true_iff in H; lia.
  - apply (backward_loop cond1 0); [|unfold fuel, JS.slen in *; lia].
    intros j H; apply andb_true_iff in H; lia.
  - apply (backward_loop cond2 0); [|unfold fuel, JS.slen in *; lia].
    intros j H; apply andb_true_iff in H; lia.
Qed.

End WordLoops.

(* ================================================================= *)
(** * Closed instances of the further properties *)

Section ListWitnesses.

Import ListWidget.

Lemma disabledHead_hasEnabled : hasEnabled (items Samples.disabledHead).
Proof. exists 1. split; [split; [discriminate | reflexivity] | reflexivity]. Defined.

Lemma disabledTail_hasEnabled : hasEnabled (items Samples.disabledTail).
Proof. exists 0. split; [split; [discriminate | reflexivity] | reflexivity]. Defined.

Lemma disabledMiddle_hasEnabled : hasEnabled (items Samples.disabledMiddle).
Proof. exists 0. split; [split; [discriminate | reflexivity] | reflexivity]. Defined.

Lemma moveToStart_selects_first_enabled_witness :
  hasEnabled (items Samples.disabledHead) /\
  selected (moveToStart Samples.disabledHead) = 1 /\
  isDisabled (items Samples.disabledHead)
             (selected (moveToStart Samples.disabledHead)) = false.
Proof.
  split; [exact disabledHead_hasEnabled|]. split; [reflexivity|].
  apply (moveToStart_selects_first_enabled Samples.disabledHead
           disabledHead_hasEnabled).
Defined.

Lemma moveToEnd_selects_last_enabled_witness :
  hasEnabled (items Samples.disabledTail) /\
  selected (moveToEnd Samples.disabledTail) = 0 /\
  isDisabled (items Samples.disabledTail)
             (selected (moveToEnd Samples.disabledTail)) = false.
Proof.
  split; [exact disabledTail_hasEnabled|]. split; [reflexivity|].
  apply (moveToEnd_selects_last_enabled Samples.disabledTail
           disabledTail_hasEnabled).
Defined.

Lemma wrapping_moves_reach_enabled_witness :
  wrap Samples.disabledMiddle = true /\
  hasEnabled (items Samples.disabledMiddle) /\
  0 <= selected Samples.disabledMiddle
  < JS.len (items Samples.disabledMiddle) /\
  selected (moveDown Samples.disabledMiddle) = 2 /\
  isDisabled (items Samples.disabledMiddle)
             (selected (moveUp Samples.disabledMiddle)) = false /\
  isDisabled (items Samples.disabledMiddle)
             (selected (moveDown Samples.disabledMiddle)) = false.
Proof.
  assert (Hr : 0 <= selected Samples.disabledMiddle
               < JS.len (items Samples.disabledMiddle))
    by (split; [discriminate | reflexivity]).
  split; [reflexivity|]. split; [exact disabledMiddle_hasEnabled|].
  split; [exact Hr|]. split; [reflexivity|].
  apply (wrapping_moves_reach_enabled Samples.disabledMiddle eq_refl
           disabledMiddle_hasEnabled Hr).
Defined.

Lemma updateOffset_minimal_witness :
  let m := select Samples.firstOfFive 4 in
  offset m = 2 /\
  0 < height m /\ offset m <= selected m < offset m + height m /\
  updateOffset m = m /\
  updateOffset (updateOffset Samples.lastOfFive)
  = updateOffset Samples.lastOfFive.
Proof.
  cbv zeta. split; [reflexivity|].
  assert (H1 : 0 < height (select Samples.firstOfFive 4)) by reflexivity.
  assert (H2 : offset (select Samples.firstOfFive 4)
               <= selected (select Samples.firstOfFive 4)
               < offset (select Samples.firstOfFive 4)
                 + height (select Samples.firstOfFive 4))
    by (split; [discriminate | reflexivity]).
  split; [exact H1|]. split; [exact H2|]. split.
  - apply (proj1 (updateOffset_minimal (select Samples.firstOfFive 4)) H1 H2).
  - apply (proj2 (updateOffset_minimal Samples.lastOfFive)). discriminate.
Defined.

Lemma select_then_getSelected_witness :
  JS.index (items Samples.firstOfFive) 3 = Some (Samples.item "Item 4") /\
  selected (select Samples.firstOfFive 3) = 3 /\
  getSelected (select Samples.firstOfFive 3) = Some (Samples.item "Item 4") /\
  offset (select Samples.firstOfFive 3) = 1.
Proof.
  split; [reflexivity|].
  destruct (select_then_getSelected Samples.firstOfFive 3
              (Samples.item "Item 4") eq_refl) as [H1 [H2 _]];
    [discriminate|].
  split; [exact H1|]. split; [exact H2 | reflexivity].
Defined.

Lemma view_throws_iff_witness :
  view (moveToEnd Samples.onlyDisabled) = None /\
  exists text, view (select Samples.firstOfFive 4) = Some text.
Proof.
  split.
  - apply (proj2 (view_throws_iff (moveToEnd Samples.onlyDisabled))).
    split; [discriminate|]. split; reflexivity.
  - destruct (view (select Samples.firstOfFive 4)) as [text|] eqn:E.
    + now exists text.
    + apply (proj1 (view_throws_iff (select Samples.firstOfFive 4))) in E.
      destruct E as [_ [E _]]. discriminate E.
Defined.

End ListWitnesses.

Section TableWitnesses.

Import Table.

Lemma selectRow_then_getSelected_witness :
  selectRow Samples.usersTable 7 = Samples.usersTable /\
  selected (selectRow Samples.usersTable 1) = 1 /\
  getSelected (selectRow Samples.usersTable 1)
  = Some (Samples.user "Bob" 25 "LA").
Proof.
  destruct (selectRow_then_getSelected Samples.usersTable 7) as [H1 _].
  destruct (selectRow_then_getSelected Samples.usersTable 1) as [_ [H2 _]].
  split; [apply H1; right; discriminate|].
  assert (Hr : 0 <= 1 < JS.len (rows Samples.usersTable))
    by (split; [discriminate | reflexivity]).
  destruct (H2 Hr) as [H3 _].
  split; [exact H3 | reflexivity].
Defined.



Lemma table_moves_are_inverse_witness :
  selected (moveDown Samples.usersTable) = 0 /\
  moveUp (moveDown Samples.usersTable) = Samples.usersTable /\
  moveDown (moveUp Samples.usersTable) = Samples.usersTable.
Proof.
  split; [reflexivity|].
  apply (table_moves_are_inverse Samples.usersTable eq_refl).
  - discriminate.
  - split; [discriminate | reflexivity].
Defined.

Lemma padCell_width_witness :
  padCell "Charlie" 4 AlignLeft = "Char" /\
  padCell "Bob" 6 AlignCenter = " Bob  " /\
  JS.slen (padCell "Charlie" 4 AlignLeft) = 4 /\
  JS.slen (padCell "Bob" 6 AlignCenter) = 6.
Proof.
  split; [reflexivity|]. split; [reflexivity|]. split.
  - apply (proj1 (padCell_width "Charlie" 4 AlignLeft ltac:(discriminate))).
  - apply (proj1 (padCell_width "Bob" 6 AlignCenter ltac:(discriminate))).
Defined.

Lemma computed_width_bounds_witness :
  computeWidth Samples.users (Samples.nameColumn None None None) = 7 /\
  JS.slen "Charlie" <= computeWidth Samples.users
                                    (Samples.nameColumn None None None) /\
  computeWidth Samples.users Samples.boundedColumn <= 6.
Proof.
  split; [reflexivity|]. split.
  - destruct (computed_width_bounds Samples.users
                (Samples.nameColumn None None None) eq_refl) as [H _].
    destruct (H eq_refl) as [_ [Hrows _]].
    apply (Hrows (Samples.user "Charlie" 35 "Chicago")).
    right. right. left. reflexivity.
  - destruct (computed_width_bounds Samples.users Samples.boundedColumn
                eq_refl) as [_ H].
    apply (H 6 eq_refl). discriminate.
Defined.

Lemma usersTable_widths :
  List.length (columnWidths Samples.usersTable)
  = List.length (columns Samples.usersTable) /\
  Forall (fun w => 0 <= w) (columnWidths Samples.usersTable).
Proof.
  split; [reflexivity|].
  repeat constructor; discriminate.
Defined.

Lemma rows_render_aligned_witness :
  renderRow Samples.usersTable ["Alice"; "30"; "NYC"] false
  = Some "  │ Alice   │  30 │ NYC     │" /\
  exists line1 line2,
    renderRow Samples.usersTable ["Alice"; "30"; "NYC"] false = Some line1 /\
    renderRow Samples.usersTable ["Charlie"; "35"; "Chicago"] false
    = Some line2 /\
    JS.slen line1 = JS.slen line2.
Proof.
  split; [reflexivity|].
  apply (rows_render_aligned Samples.usersTable
           ["Alice"; "30"; "NYC"] ["Charlie"; "35"; "Chicago"] false).
  - discriminate.
  - exact (proj1 usersTable_widths).
  - exact (proj2 usersTable_widths).
  - reflexivity.
  - reflexivity.
Defined.

Lemma table_view_renders_witness :
  exists lines,
    viewLines Samples.usersTable = Some lines /\
    view Samples.usersTable = Some (JS.join JS.newline lines) /\
    (3 <= List.length lines <= 7)%nat.
Proof.
  destruct (table_view_renders Samples.usersTable) as [lines [H1 [H2 [H3 _]]]].
  - discriminate.
  - exact (proj1 usersTable_widths).
  - exact (proj2 usersTable_widths).
  - exists lines. split; [exact H1|]. split; [exact H2 | exact H3].
Defined.

Lemma widths_are_sizes_witness :
  Forall (fun w => 0 <= w)
         (columnWidths (createTable
                          (Samples.tableOptions Samples.userColumns
                                                Samples.users))) /\
  Forall (fun w => 0 <= w)
         (columnWidths (setRows Samples.usersTable Samples.users)).
Proof.
  split.
  - apply (proj1 (proj2 (proj2 widths_are_sizes))
                 (Samples.tableOptions Samples.userColumns Samples.users)).
    intros col w Hin [H|H];
      repeat (destruct Hin as [<-|Hin]; [discriminate H|]); contradiction.
  - apply (proj2 (proj2 (proj2 widths_are_sizes))
                 Samples.usersTable Samples.users).
    intros col w Hin [H|H];
      repeat (destruct Hin as [<-|Hin]; [discriminate H|]); contradiction.
Defined.

End TableWitnesses.

Section TimerWitnesses.

Import Timer.

Lemma pause_freezes_elapsed_witness :
  state Samples.oneSecond = running /\
  getElapsed 5400 Samples.oneSecond = 400 /\
  getElapsed 9000 (pause 5400 Samples.oneSecond) = 400.
Proof.
  split; [reflexivity|]. split; [reflexivity|].
  rewrite (proj2 (pause_freezes_elapsed Samples.oneSecond 5400 9000 eq_refl)).
  reflexivity.
Defined.

Lemma elapsed_counts_running_time_witness :
  let m := createTimer 0 (mkOptions None None None None) in
  state m = idle /\
  getElapsed 9000 (resume 8000 (pause 1500 (start 1000 m))) = 1500.
Proof.
  cbv zeta. split; [reflexivity|].
  rewrite (proj1 (elapsed_counts_running_time
                    (createTimer 0 (mkOptions None None None None))
                    1000 1500 8000 9000 ltac:(discriminate)
                    ltac:(discriminate)) eq_refl).
  reflexivity.
Defined.

Lemma tick_finishes_when_no_time_remains_witness :
  state Samples.oneSecond = running /\ mode Samples.oneSecond = countdown /\
  getRemaining 6000 Samples.oneSecond = 0 /\
  state (tick 6000 Samples.oneSecond) = finished /\
  getRemaining 5999 Samples.oneSecond = 1.
Proof.
  split; [reflexivity|]. split; [reflexivity|]. split; [reflexivity|].
  split; [|reflexivity].
  apply (proj1 (tick_finishes_when_no_time_remains Samples.oneSecond 6000)
               eq_refl eq_refl).
  reflexivity.
Defined.

Lemma only_tick_finishes_witness :
  state Samples.oneSecond <> finished /\
  state (toggle 5400 Samples.oneSecond) <> finished /\
  state (stop (tick 6000 Samples.oneSecond)) = idle.
Proof.
  assert (H : state Samples.oneSecond <> finished) by discriminate.
  split; [exact H|]. split.
  - apply (proj1 (only_tick_finishes Samples.oneSecond 5400) H).
  - apply (proj2 (only_tick_finishes (tick 6000 Samples.oneSecond) 0)).
    reflexivity.
Defined.

Lemma formatTime_length_witness :
  formatTime 3665000 false = "01:01:05" /\
  formatTime 1234 true = "00:01.23" /\
  String.length (formatTime 3665000 false) = 8%nat /\
  String.length (formatTime 1234 true) = 8%nat.
Proof.
  split; [reflexivity|]. split; [reflexivity|]. split.
  - rewrite (formatTime_length 3665000 false); [reflexivity|].
    split; [discriminate | reflexivity].
  - rewrite (formatTime_length 1234 true); [reflexivity|].
    split; [discriminate | reflexivity].
Defined.

End TimerWitnesses.

Section TextInputWitnesses.

Import TextInput.

Lemma helloWorld_cursorOk : cursorOk Samples.helloWorld.
Proof. split; discriminate. Defined.

Lemma editing_keeps_cursor_inside_witness :
  cursorOk Samples.helloWorld /\
  cursor (setCursor Samples.helloWorld 99) = 11 /\
  value (backspace Samples.helloWorld) = "hello worl" /\
  cursorOk (backspace Samples.helloWorld) /\
  cursorOk (insert Samples.helloWorld "!").
Proof.
  split; [exact helloWorld_cursorOk|]. split; [reflexivity|].
  split; [reflexivity|].
  destruct (proj2 (editing_keeps_cursor_inside Samples.helloWorld)
                  helloWorld_cursorOk) as [_ [H1 [_ [_ [_ [_ H2]]]]]].
  split; [exact H1|]. apply H2. left. discriminate.
Defined.



Lemma backspace_undoes_insert_witness :
  value (insert Samples.helloWorld "!") = "hello world!" /\
  backspace (insert Samples.helloWorld "!") = Samples.helloWorld.
Proof.
  split; [reflexivity|].
  apply (backspace_undoes_insert Samples.helloWorld "!" helloWorld_cursorOk).
  - reflexivity.
  - left. discriminate.
Defined.

Lemma maxLength_is_respected_witness :
  value (setValue Samples.almostFull "abcdef") = "abc" /\
  lengthOk (setValue Samples.almostFull "abcdef") /\
  lengthOk (insert Samples.almostFull "xyz").
Proof.
  split; [reflexivity|]. split.
  - apply (proj1 (maxLength_is_respected Samples.almostFull)).
  - apply (proj2 (maxLength_is_respected Samples.almostFull)).
    intros _. discriminate.
Defined.

Lemma deleteToEnd_deleteToStart_split_witness :
  let m := setCursor Samples.helloWorld 5 in
  cursorOk m /\
  value (deleteToEnd m) = "hello" /\ value (deleteToStart m) = " world" /\
  value (deleteToEnd m) ++ value (deleteToStart m) = value m.
Proof.
  cbv zeta.
  assert (H : cursorOk (setCursor Samples.helloWorld 5))
    by (split; discriminate).
  split; [exact H|]. split; [reflexivity|]. split; [reflexivity|].
  apply (deleteToEnd_deleteToStart_split _ H).
Defined.

Lemma focused_view_fills_width_witness :
  view Samples.narrowHello = Some "> llo world|" /\
  exists text, view Samples.narrowHello = Some text /\
               JS.slen text = JS.slen (prompt Samples.narrowHello) + 10.
Proof.
  split; [reflexivity|].
  apply (focused_view_fills_width Samples.narrowHello);
    try reflexivity; try discriminate.
  split; discriminate.
Defined.

Lemma word_moves_make_progress_witness :
  let m := setCursor Samples.helloWorld 2 in
  cursorOk m /\
  cursor (wordRight Samples.isBlank m) = 6 /\
  cursor (wordLeft Samples.isBlank Samples.helloWorld) = 6 /\
  cursor m < cursor (wordRight Samples.isBlank m) <= JS.slen (value m) /\
  0 <= cursor (wordLeft Samples.isBlank Samples.helloWorld)
  < cursor Samples.helloWorld.
Proof.
  cbv zeta.
  assert (H : cursorOk (setCursor Samples.helloWorld 2))
    by (split; discriminate).
  split; [exact H|]. split; [reflexivity|]. split; [reflexivity|]. split.
  - apply (proj1 (word_moves_make_progress Samples.isBlank _ H)).
    discriminate.
  - apply (proj2 (word_moves_make_progress Samples.isBlank _
                    helloWorld_cursorOk)).
    discriminate.
Defined.

Lemma deleteWordBackward_removes_word_witness :
  cursorOk Samples.helloWorld /\ cursor Samples.helloWorld <> 0 /\
  value (deleteWordBackward Samples.isBlank Samples.helloWorld) = "hello " /\
  0 <= cursor (deleteWordBackward Samples.isBlank Samples.helloWorld)
  < cursor Samples.helloWorld.
Proof.
  assert (H : cursor Samples.helloWorld <> 0) by discriminate.
  split; [exact helloWorld_cursorOk|]. split; [exact H|].
  split; [reflexivity|].
  apply (deleteWordBackward_removes_word Samples.isBlank Samples.helloWorld
           helloWorld_cursorOk H).
Defined.

End TextInputWitnesses.
